(** * DataLens page logic: CSV ingestion and analysis-result normalisation

  A shallow embedding of the two data contracts of the page component
  ([src/app/page.tsx] and its restyled twin): [parseCSV], which turns the
  text of an uploaded file into a [FileData] record, and the body of
  [analyzeData], which turns the answer of the remote agent into an
  [AnalysisResult] and commits it to the view state.

  JavaScript strings are sequences of UTF-16 code units, modelled as
  [list N]; numbers that come from the payload are IEEE doubles, modelled
  with the primitive floats of Rocq; lengths and counts are [nat]. *)

From Stdlib Require Import NArith ZArith QArith Qround PrimFloat DecimalString.
From Stdlib Require DecimalN DecimalPos DecimalFacts.
From stdpp Require Import gmap list strings.

#[local] Set Warnings "-inexact-float".

Abbreviation jsstring := (list N).

(** ** JavaScript built-ins used by the page *)
Module JS.

(** A literal of the source, as code units. *)
Definition lit (s : string) : jsstring :=
  (λ a, Ascii.N_of_ascii a) <$> String.list_ascii_of_string s.

Definition nl : N := 10.
Definition comma : N := 44.

(** White space and line terminators, the code units that
    [String.prototype.trim] strips. *)
Definition is_ws (c : N) : bool :=
  existsb (N.eqb c)
    [9; 10; 11; 12; 13; 32; 160; 5760; 8232; 8233; 8239; 8287; 12288; 65279]%N
  || ((8192 <=? c) && (c <=? 8202))%N.

Fixpoint trimStart (s : jsstring) : jsstring :=
  match s with
  | c :: s' => if is_ws c then trimStart s' else s
  | [] => []
  end.

Definition trimEnd (s : jsstring) : jsstring :=
  reverse (trimStart (reverse s)).

(** [s.trim()] *)
Definition trim (s : jsstring) : jsstring := trimEnd (trimStart s).

Definition push_head (c : N) (ls : list jsstring) : list jsstring :=
  match ls with
  | l :: ls' => (c :: l) :: ls'
  | [] => [[c]]
  end.

(** [s.split(sep)] for a separator of one code unit. *)
Fixpoint split (sep : N) (s : jsstring) : list jsstring :=
  match s with
  | [] => [[]]
  | c :: s' =>
      if N.eqb c sep then [] :: split sep s' else push_head c (split sep s')
  end.

(** [l.slice(from)] and [l.slice(0, to)] *)
Definition slice_from {A} (from : nat) (l : list A) : list A := drop from l.
Definition slice_to {A} (to : nat) (l : list A) : list A := take to l.

(** [l.reduce((acc, x, idx) => f(acc, x, idx), init)] *)
Fixpoint reduce_from {A B} (f : B → A → nat → B) (l : list A) (idx : nat)
    (acc : B) : B :=
  match l with
  | [] => acc
  | x :: l' => reduce_from f l' (S idx) (f acc x idx)
  end.

Definition reduce {A B} (f : B → A → nat → B) (l : list A) (init : B) : B :=
  reduce_from f l 0 init.

(** [x || ''] where [x] is a string or [undefined]: the empty string is
    falsy, so both it and [undefined] give [''], which is the string
    itself in the first case. *)
Definition or_empty (x : option jsstring) : jsstring :=
  match x with
  | Some (c :: s) => c :: s
  | Some [] | None => []
  end.

(** [obj[key] = v] on an object created by the literal [{}]. Its
    prototype is [Object.prototype], whose accessor [__proto__] takes the
    assignment for that one key; given a string it does nothing, so no own
    property is created. Every other key becomes an own property. *)
Definition obj_set (key v : jsstring) (obj : gmap (list N) (list N))
    : gmap (list N) (list N) :=
  if decide (key = lit "__proto__") then obj else <[key := v]> obj.

(** Exceptions raised by the constructs the page uses. *)
Inductive exn := TypeError | SyntaxError.

Definition result (A : Type) : Type := exn + A.

Definition throw {A} (e : exn) : result A := inl e.

#[global] Instance result_ret : MRet result := λ A x, inr x.
#[global] Instance result_bind : MBind result := λ A B k m,
  match m with
  | inl e => inl e
  | inr x => k x
  end.

(** [l[i].m(...)] : reading a method of [undefined] is a [TypeError]. *)
Definition index_obj {A} (l : list A) (i : nat) : result A :=
  match l !! i with
  | Some x => mret x
  | None => throw TypeError
  end.

(** [l.join(sep)] on strings, for a separator of one code unit. *)
Fixpoint join (sep : N) (l : list jsstring) : jsstring :=
  match l with
  | [] => []
  | [x] => x
  | x :: rest => x ++ sep :: join sep rest
  end.

Fixpoint startsWith (p s : jsstring) : bool :=
  match p, s with
  | [], _ => true
  | a :: p', b :: s' => N.eqb a b && startsWith p' s'
  | _ :: _, [] => false
  end.

(** [s.endsWith(p)] *)
Definition endsWith (p s : jsstring) : bool :=
  startsWith (reverse p) (reverse s).

(** [s.replace(pat, rep)] for a string pattern and a replacement without
    [$]: the first occurrence of [pat], if any, is replaced. *)
Fixpoint replace (pat rep s : jsstring) : jsstring :=
  if startsWith pat s then rep ++ drop (length pat) s
  else match s with
       | [] => []
       | c :: s' => c :: replace pat rep s'
       end.

(** What a read [obj[key]] can give on an object created by [{}] whose own
    properties hold strings: an own string, or what the prototype chain
    has, which is [Object.prototype] itself for [__proto__] and a built-in
    function for the names of its members, or [undefined]. *)
Inductive value :=
| VString (s : jsstring)
| VObjectPrototype
| VBuiltin (name : jsstring)
| VUndefined.

Definition object_prototype_members : list jsstring :=
  lit <$> ["constructor"; "__defineGetter__"; "__defineSetter__";
           "hasOwnProperty"; "__lookupGetter__"; "__lookupSetter__";
           "isPrototypeOf"; "propertyIsEnumerable"; "toString"; "valueOf";
           "toLocaleString"].

(** [obj[key]] *)
Definition obj_get (key : jsstring) (obj : gmap (list N) (list N)) : value :=
  match obj !! key with
  | Some v => VString v
  | None =>
      if decide (key = lit "__proto__") then VObjectPrototype
      else if decide (key ∈ object_prototype_members) then VBuiltin key
      else VUndefined
  end.

(** [x || ''] on such a read: only [undefined] and [''] are falsy. *)
Definition value_or_empty (x : value) : value :=
  match x with
  | VUndefined | VString [] => VString []
  | _ => x
  end.

(** The text [join] puts for an element: a string is itself,
    [Object.prototype] prints as [[object Object]], and a built-in function
    prints as its source text, which the engine chooses. *)
Definition element_text (function_text : jsstring → jsstring) (x : value)
    : jsstring :=
  match x with
  | VString s => s
  | VUndefined => []
  | VObjectPrototype => lit "[object Object]"
  | VBuiltin name => function_text name
  end.

End JS.


(** ** JSON values and the operations the page applies to them *)
Module Json.

(** A decoded JSON value. An object is its list of own properties in
    insertion order, with distinct keys. *)
#[local] Unset Elimination Schemes.
Inductive t :=
| Null
| Bool (b : bool)
| Num (x : float)
| Str (s : jsstring)
| Arr (items : list t)
| Obj (fields : list (jsstring * t)).
#[local] Set Elimination Schemes.

(** The property names the page reads from the agent's answer. None of them
    is defined on [Object.prototype], [Array.prototype] or the prototypes of
    the primitive wrappers, so a read finds an own property or nothing. *)
Inductive prop :=
| success | response | summary | completenessScore
| dataQuality | statistics | correlations | patterns | insights.

Definition prop_name (p : prop) : jsstring :=
  JS.lit match p with
         | success => "success"
         | response => "response"
         | summary => "summary"
         | completenessScore => "completenessScore"
         | dataQuality => "dataQuality"
         | statistics => "statistics"
         | correlations => "correlations"
         | patterns => "patterns"
         | insights => "insights"
         end.

Fixpoint own (key : jsstring) (fields : list (jsstring * t)) : option t :=
  match fields with
  | [] => None
  | (k, v) :: rest => if decide (k = key) then Some v else own key rest
  end.

(** [v.p]: [None] is [undefined]; reading a property of [null] throws. *)
Definition get (v : t) (p : prop) : JS.result (option t) :=
  match v with
  | Null => JS.throw JS.TypeError
  | Obj fields => mret (own (prop_name p) fields)
  | Bool _ | Num _ | Str _ | Arr _ => mret None
  end.

(** [v?.p] on the result of a previous read: short-circuits to [undefined]
    on [undefined] and [null], so it never throws. *)
Definition get_opt (v : option t) (p : prop) : option t :=
  match v with
  | None | Some Null => None
  | Some (Obj fields) => own (prop_name p) fields
  | Some (Bool _ | Num _ | Str _ | Arr _) => None
  end.

Definition is_nan (x : float) : bool := negb (PrimFloat.eqb x x).

(** ToBoolean: [undefined], [null], [false], [0], [-0], [NaN] and [''] are
    falsy, everything else is truthy. *)
Definition truthy (v : option t) : bool :=
  match v with
  | None | Some Null => false
  | Some (Bool b) => b
  | Some (Num x) => negb (PrimFloat.eqb x 0 || is_nan x)
  | Some (Str s) => negb (bool_decide (s = []))
  | Some (Arr _ | Obj _) => true
  end.

(** [v || d] *)
Definition or_else (v : option t) (d : t) : t :=
  match v with
  | Some x => if truthy v then x else d
  | None => d
  end.

(** The parts of the language the model leaves open: the JSON decoder
    ([None] when it throws a [SyntaxError]), the numeric value of a string
    and the string an array or object converts to when it converts. *)
Class Builtins := {
  JSON_parse : jsstring → option t;
  StringToNumber : jsstring → float;
  ObjectToString : t → jsstring;
}.

(** Whether converting a value to a primitive throws. An object decoded
    from JSON inherits [toString] and [valueOf] from [Object.prototype],
    unless it has own properties of these names, which are never callable:
    [valueOf] then gives no primitive, and with an own [toString] there is
    no method left that gives one, which is a [TypeError]. An array is
    printed by joining the texts of its elements, so it throws when one of
    them does; [null] elements print as nothing. *)
Fixpoint unconvertible (v : t) : bool :=
  match v with
  | Obj fields =>
      match own (JS.lit "toString") fields with
      | Some _ => true
      | None => false
      end
  | Arr items => existsb unconvertible items
  | Null | Bool _ | Num _ | Str _ => false
  end.

(** ToNumber, applied by the division [_ / 100]: an array or object is
    first converted to a primitive, its text, which can throw. *)
Definition ToNumber `{Builtins} (v : t) : JS.result float :=
  match v with
  | Null => mret 0%float
  | Bool b => mret (if b then 1 else 0)%float
  | Num x => mret x
  | Str s => mret (StringToNumber s)
  | Arr _ | Obj _ =>
      if unconvertible v then JS.throw JS.TypeError
      else mret (StringToNumber (ObjectToString v))
  end.

End Json.

(** ** Number formatting *)
Module Fmt.

Definition of_uint (d : Decimal.uint) : jsstring :=
  JS.lit (NilZero.string_of_uint d).

(** The decimal digits of a natural number. *)
Definition digits (n : N) : jsstring := of_uint (N.to_uint n).

(** [x.toFixed(f)] for a finite [x] with [0 <= x < 1e21], given by its
    exact value: [n] is the integer nearest to [x * 10^f], the larger one
    on a tie; its digits are padded with zeros to [f + 1] places and the
    point is set before the last [f]. *)
Definition nearest (f : nat) (x : Q) : N :=
  Z.to_N (Qfloor (x * inject_Z (10 ^ Z.of_nat f)%Z + (1 # 2))%Q).

Definition render (f : nat) (n : N) : jsstring :=
  let m := digits n in
  let m := replicate (S f - length m) 48%N ++ m in
  if decide (f = 0) then m
  else take (length m - f) m ++ [46%N] ++ drop (length m - f) m.

Definition toFixed (f : nat) (x : Q) : jsstring := render f (nearest f x).

(** [n / 1024] for a string length [n]: an integer below [2^53] divided by a
    power of two, so the double is the exact quotient. *)
Definition div1024 (n : nat) : Q := (Z.of_nat n # 1024)%Q.

End Fmt.

(** ** Data model *)

Module FileData.
Record t := mk {
  name : jsstring;
  size : nat;
  rows : nat;
  columns : nat;
  headers : list jsstring;
  preview : list (gmap (list N) (list N));
}.
End FileData.

Module AnalysisResult.
Record summary_t := mk_summary {
  totalRows : nat;
  totalColumns : nat;
  completenessScore : float;
  memorySize : jsstring;
}.
Record t := mk {
  summary : summary_t;
  dataQuality : Json.t;
  statistics : Json.t;
  correlations : Json.t;
  patterns : Json.t;
  insights : Json.t;
}.
End AnalysisResult.

(** The view state held by the [useState] hooks of the component. *)
Record state := mk_state {
  fileData : option FileData.t;
  analysis : option AnalysisResult.t;
  loading : bool;
  error : option jsstring;
  activeTab : jsstring;
}.

Definition setFileData (v : option FileData.t) (st : state) : state :=
  mk_state v (analysis st) (loading st) (error st) (activeTab st).
Definition setAnalysis (v : option AnalysisResult.t) (st : state) : state :=
  mk_state (fileData st) v (loading st) (error st) (activeTab st).
Definition setLoading (v : bool) (st : state) : state :=
  mk_state (fileData st) (analysis st) v (error st) (activeTab st).
Definition setError (v : option jsstring) (st : state) : state :=
  mk_state (fileData st) (analysis st) (loading st) v (activeTab st).
Definition setActiveTab (v : jsstring) (st : state) : state :=
  mk_state (fileData st) (analysis st) (loading st) (error st) v.

(** What [await fetch(...)] followed by [await response.json()] hands to
    [analyzeData]: either promise may reject, otherwise the body decodes to
    a JSON value. The status code of the response is not inspected. *)
Inductive fetched :=
| FetchRejected
| BodyRejected
| Body (data : Json.t).

(** A file of a drop event: its name, media type and text. *)
Module File.
Record t := mk {
  name : jsstring;
  type : jsstring;
  text : jsstring;
}.
End File.

(** The object [downloadReport] serializes. *)
Module Report.
Record t := mk {
  fileName : jsstring;
  timestamp : jsstring;
  summary : AnalysisResult.summary_t;
  dataQuality : Json.t;
  statistics : Json.t;
  correlations : Json.t;
  patterns : Json.t;
  insights : Json.t;
}.
End Report.

Definition upload_type_message : jsstring :=
  JS.lit "Please upload a valid CSV file".

(** The state of the first render, from the [useState] calls. *)
Definition initial : state :=
  mk_state None None false None (JS.lit "summary").

Definition parse_error_message : jsstring :=
  JS.lit "Failed to parse CSV file. Please ensure it has valid CSV format.".
Definition analyze_failed_message : jsstring :=
  JS.lit "Failed to analyze data. Please try again.".
Definition analyze_error_message : jsstring :=
  JS.lit "Error analyzing data. Please try again.".

(** ** [src/app/page.tsx] *)
Module Page.

Definition parseCSV (text fileName : jsstring) : JS.result FileData.t :=
  let lines := JS.split JS.nl (JS.trim text) in
  line0 ← JS.index_obj lines 0;
  let headers := JS.trim <$> JS.split JS.comma line0 in
  let data :=
    (λ line,
       let values := JS.trim <$> JS.split JS.comma line in
       JS.reduce (λ obj header idx,
                    JS.obj_set header (JS.or_empty (values !! idx)) obj)
                 headers ∅)
    <$> JS.slice_from 1 lines in
  mret {| FileData.name := fileName;
          FileData.size := length text;
          FileData.rows := length data;
          FileData.columns := length headers;
          FileData.headers := headers;
          FileData.preview := JS.slice_to 10 data |}.

Definition SAMPLE_CSV : jsstring :=
  JS.lit "Name,Age,Salary,Department,Experience,Performance
John Doe,32,75000,Engineering,8,4.5
Jane Smith,28,65000,Marketing,5,4.2
Bob Johnson,45,95000,Engineering,20,4.8
Alice Williams,35,85000,Sales,12,4.3
Charlie Brown,29,70000,Marketing,6,4.1
David Davis,52,120000,Engineering,28,4.9
Emma Wilson,26,60000,HR,3,3.8
Frank Miller,38,88000,Sales,15,4.4
Grace Lee,41,92000,Engineering,18,4.7
Henry Taylor,30,72000,Marketing,7,4.0
Iris Chen,36,87000,Sales,13,4.5
Jack Martinez,25,58000,HR,2,3.7
Karen Anderson,44,98000,Engineering,21,4.8
Leo Thompson,33,79000,Marketing,9,4.3
Mary Jackson,39,90000,Sales,16,4.6".

(** The [onload] callback of [handleFileUpload], run with the text of the
    file: the [try] commits the parsed file, the [catch] reports. *)
Definition onload (text fileName : jsstring) (st : state) : state :=
  match parseCSV text fileName with
  | inr parsed => setAnalysis None (setFileData (Some parsed) st)
  | inl _ => setError (Some parse_error_message) st
  end.

(** [handleFileUpload], for the chosen file (its name and text), if any. *)
Definition handleFileUpload (file : option (jsstring * jsstring)) (st : state)
    : state :=
  match file with
  | None => st
  | Some (fileName, text) => onload text fileName (setError None st)
  end.

(** [loadSampleData] *)
Definition loadSampleData (st : state) : state :=
  match parseCSV SAMPLE_CSV (JS.lit "sample_data.csv") with
  | inr parsed => setError None (setAnalysis None (setFileData (Some parsed) st))
  | inl _ => st
  end.

Section Analyze.
Context `{Json.Builtins}.

(** The object literal bound to [analysisData] in [analyzeData]. Its fields
    are evaluated in order; the first read of [parsedData] throws when it is
    [null], and the division throws when its operand does not convert to a
    number. *)
Definition analysisData (parsedData : Json.t) (fileData : FileData.t)
    : JS.result AnalysisResult.t :=
  summary ← Json.get parsedData Json.summary;
  let score := Json.get_opt summary Json.completenessScore in
  percent ← Json.ToNumber (Json.or_else score (Json.Num 85));
  dataQuality ← Json.get parsedData Json.dataQuality;
  statistics ← Json.get parsedData Json.statistics;
  correlations ← Json.get parsedData Json.correlations;
  patterns ← Json.get parsedData Json.patterns;
  insights ← Json.get parsedData Json.insights;
  mret {|
    AnalysisResult.summary := {|
      AnalysisResult.totalRows := FileData.rows fileData;
      AnalysisResult.totalColumns := FileData.columns fileData;
      AnalysisResult.completenessScore := (percent / 100)%float;
      AnalysisResult.memorySize :=
        Fmt.toFixed 2 (Fmt.div1024 (FileData.size fileData)) ++ JS.lit " KB";
    |};
    AnalysisResult.dataQuality :=
      Json.or_else dataQuality
        (Json.Obj [(JS.lit "missingValues", Json.Obj []);
                   (JS.lit "duplicateRows", Json.Num 0);
                   (JS.lit "dataTypeIssues", Json.Arr [])]);
    AnalysisResult.statistics := Json.or_else statistics (Json.Obj []);
    AnalysisResult.correlations := Json.or_else correlations (Json.Arr []);
    AnalysisResult.patterns :=
      Json.or_else patterns
        (Json.Obj [(JS.lit "trends", Json.Arr []);
                   (JS.lit "distributions", Json.Obj []);
                   (JS.lit "outliers", Json.Arr [])]);
    AnalysisResult.insights := Json.or_else insights (Json.Arr []);
  |}.

(** The body of the [try] block of [analyzeData] after the request has been
    sent: [Some r] when the [if] branch builds [r], [None] when the [else]
    branch is taken. Building the request text reads the preview only and
    cannot throw. *)
Definition attempt (fileData : FileData.t) (reply : fetched)
    : JS.result (option AnalysisResult.t) :=
  data ← match reply with
         | FetchRejected => JS.throw JS.TypeError
         | BodyRejected => JS.throw JS.SyntaxError
         | Body data => mret data
         end;
  ok ← Json.get data Json.success;
  if Json.truthy ok then
    resp ← Json.get data Json.response;
    match resp with
    | Some r =>
        if Json.truthy resp then
          parsedData ← match r with
                       | Json.Str s =>
                           match Json.JSON_parse s with
                           | Some v => mret v
                           | None => JS.throw JS.SyntaxError
                           end
                       | _ => mret r
                       end;
          analysisData ← analysisData parsedData fileData;
          mret (Some analysisData)
        else mret None
    | None => mret None
    end
  else mret None.

(** [analyzeData] up to its first [await]: nothing happens without a file;
    otherwise the request is sent for the file of this render. *)
Definition analyzeData_request (st : state) : option (FileData.t * state) :=
  match fileData st with
  | None => None
  | Some fd => Some (fd, setError None (setLoading true st))
  end.

(** [analyzeData] from the reply on, in the state the page has by then:
    the [if] branch, the [else] branch or the [catch], and the [finally]. *)
Definition analyzeData_reply (fd : FileData.t) (reply : fetched) (st : state)
    : state :=
  let st :=
    match attempt fd reply with
    | inr (Some analysisData) =>
        setActiveTab (JS.lit "summary") (setAnalysis (Some analysisData) st)
    | inr None => setError (Some analyze_failed_message) st
    | inl _ => setError (Some analyze_error_message) st
    end in
  setLoading false st.

(** [analyzeData], run to completion against the reply of the agent. *)
Definition analyzeData (reply : fetched) (st : state) : state :=
  match analyzeData_request st with
  | None => st
  | Some (fd, st) => analyzeData_reply fd reply st
  end.

End Analyze.
(** [handleDragDrop], for the first dropped file, if any. The file is read
    when its type is [text/csv] or its name ends in [.csv]; the error is
    set otherwise, and is not reset before reading. *)
Definition handleDragDrop (file : option File.t) (st : state) : state :=
  match file with
  | Some f =>
      if bool_decide (File.type f = JS.lit "text/csv")
         || JS.endsWith (JS.lit ".csv") (File.name f)
      then onload (File.text f) (File.name f) st
      else setError (Some upload_type_message) st
  | None => setError (Some upload_type_message) st
  end.

(** [resetAnalysis] *)
Definition resetAnalysis (st : state) : state :=
  setActiveTab (JS.lit "summary")
    (setError None (setAnalysis None (setFileData None st))).

(** [downloadReport] at the time [now]: the report object that is
    serialized and the name the download is given, or nothing without an
    analysis or a file. The state is not touched. *)
Definition downloadReport (now : jsstring) (st : state)
    : option (Report.t * jsstring) :=
  match analysis st, fileData st with
  | Some a, Some fd =>
      Some ({| Report.fileName := FileData.name fd;
               Report.timestamp := now;
               Report.summary := AnalysisResult.summary a;
               Report.dataQuality := AnalysisResult.dataQuality a;
               Report.statistics := AnalysisResult.statistics a;
               Report.correlations := AnalysisResult.correlations a;
               Report.patterns := AnalysisResult.patterns a;
               Report.insights := AnalysisResult.insights a |},
            JS.replace (JS.lit ".csv") [] (FileData.name fd)
              ++ JS.lit "_analysis.json")
  | _, _ => None
  end.

(** The text [csvContent] that [analyzeData] puts into its request: the
    headers and the previewed rows, each joined by commas, the lines joined
    by newlines. [function_text] is the source text the engine prints for a
    built-in function. *)
Definition csvContent (function_text : jsstring → jsstring)
    (fileData : FileData.t) : jsstring :=
  JS.join JS.nl
    (JS.join JS.comma (FileData.headers fileData)
     :: ((λ row,
            JS.join JS.comma
              ((λ h, JS.element_text function_text
                       (JS.value_or_empty (JS.obj_get h row)))
               <$> FileData.headers fileData))
         <$> FileData.preview fileData)).

(** The first read of the file in the markup that [HomePage] returns when
    [analysis] is set: [fileData.name], evaluated before anything else that
    can throw, is a [TypeError] without a file. [None] when the upload page
    is returned instead, which reads the file behind [fileData &&] only. *)
Definition dashboard_file (st : state) : option (JS.result FileData.t) :=
  match analysis st with
  | Some _ =>
      Some match fileData st with
           | Some fd => mret fd
           | None => JS.throw JS.TypeError
           end
  | None => None
  end.

End Page.

(** ** [src/unnamed/part_000], the restyled variant of the page *)
Module PageAlt.

Definition parseCSV (text fileName : jsstring) : JS.result FileData.t :=
  let lines := JS.split JS.nl (JS.trim text) in
  line0 ← JS.index_obj lines 0;
  let headers := JS.trim <$> JS.split JS.comma line0 in
  let data :=
    (λ line,
       let values := JS.trim <$> JS.split JS.comma line in
       JS.reduce (λ obj header idx,
                    JS.obj_set header (JS.or_empty (values !! idx)) obj)
                 headers ∅)
    <$> JS.slice_from 1 lines in
  mret {| FileData.name := fileName;
          FileData.size := length text;
          FileData.rows := length data;
          FileData.columns := length headers;
          FileData.headers := headers;
          FileData.preview := JS.slice_to 10 data |}.

Definition SAMPLE_CSV : jsstring :=
  JS.lit "Name,Age,Salary,Department,Experience,Performance
John Doe,32,75000,Engineering,8,4.5
Jane Smith,28,65000,Marketing,5,4.2
Bob Johnson,45,95000,Engineering,20,4.8
Alice Williams,35,85000,Sales,12,4.3
Charlie Brown,29,70000,Marketing,6,4.1
David Davis,52,120000,Engineering,28,4.9
Emma Wilson,26,60000,HR,3,3.8
Frank Miller,38,88000,Sales,15,4.4
Grace Lee,41,92000,Engineering,18,4.7
Henry Taylor,30,72000,Marketing,7,4.0
Iris Chen,36,87000,Sales,13,4.5
Jack Martinez,25,58000,HR,2,3.7
Karen Anderson,44,98000,Engineering,21,4.8
Leo Thompson,33,79000,Marketing,9,4.3
Mary Jackson,39,90000,Sales,16,4.6".

(** The [onload] callback of [handleFileUpload], run with the text of the
    file: the [try] commits the parsed file, the [catch] reports. *)
Definition onload (text fileName : jsstring) (st : state) : state :=
  match parseCSV text fileName with
  | inr parsed => setAnalysis None (setFileData (Some parsed) st)
  | inl _ => setError (Some parse_error_message) st
  end.

(** [handleFileUpload], for the chosen file (its name and text), if any. *)
Definition handleFileUpload (file : option (jsstring * jsstring)) (st : state)
    : state :=
  match file with
  | None => st
  | Some (fileName, text) => onload text fileName (setError None st)
  end.

(** [loadSampleData] *)
Definition loadSampleData (st : state) : state :=
  match parseCSV SAMPLE_CSV (JS.lit "sample_data.csv") with
  | inr parsed => setError None (setAnalysis None (setFileData (Some parsed) st))
  | inl _ => st
  end.

Section Analyze.
Context `{Json.Builtins}.

(** The object literal bound to [analysisData] in [analyzeData]. Its fields
    are evaluated in order; the first read of [parsedData] throws when it is
    [null], and the division throws when its operand does not convert to a
    number. *)
Definition analysisData (parsedData : Json.t) (fileData : FileData.t)
    : JS.result AnalysisResult.t :=
  summary ← Json.get parsedData Json.summary;
  let score := Json.get_opt summary Json.completenessScore in
  percent ← Json.ToNumber (Json.or_else score (Json.Num 85));
  dataQuality ← Json.get parsedData Json.dataQuality;
  statistics ← Json.get parsedData Json.statistics;
  correlations ← Json.get parsedData Json.correlations;
  patterns ← Json.get parsedData Json.patterns;
  insights ← Json.get parsedData Json.insights;
  mret {|
    AnalysisResult.summary := {|
      AnalysisResult.totalRows := FileData.rows fileData;
      AnalysisResult.totalColumns := FileData.columns fileData;
      AnalysisResult.completenessScore := (percent / 100)%float;
      AnalysisResult.memorySize :=
        Fmt.toFixed 2 (Fmt.div1024 (FileData.size fileData)) ++ JS.lit " KB";
    |};
    AnalysisResult.dataQuality :=
      Json.or_else dataQuality
        (Json.Obj [(JS.lit "missingValues", Json.Obj []);
                   (JS.lit "duplicateRows", Json.Num 0);
                   (JS.lit "dataTypeIssues", Json.Arr [])]);
    AnalysisResult.statistics := Json.or_else statistics (Json.Obj []);
    AnalysisResult.correlations := Json.or_else correlations (Json.Arr []);
    AnalysisResult.patterns :=
      Json.or_else patterns
        (Json.Obj [(JS.lit "trends", Json.Arr []);
                   (JS.lit "distributions", Json.Obj []);
                   (JS.lit "outliers", Json.Arr [])]);
    AnalysisResult.insights := Json.or_else insights (Json.Arr []);
  |}.

(** The body of the [try] block of [analyzeData] after the request has been
    sent: [Some r] when the [if] branch builds [r], [None] when the [else]
    branch is taken. Building the request text reads the preview only and
    cannot throw. *)
Definition attempt (fileData : FileData.t) (reply : fetched)
    : JS.result (option AnalysisResult.t) :=
  data ← match reply with
         | FetchRejected => JS.throw JS.TypeError
         | BodyRejected => JS.throw JS.SyntaxError
         | Body data => mret data
         end;
  ok ← Json.get data Json.success;
  if Json.truthy ok then
    resp ← Json.get data Json.response;
    match resp with
    | Some r =>
        if Json.truthy resp then
          parsedData ← match r with
                       | Json.Str s =>
                           match Json.JSON_parse s with
                           | Some v => mret v
                           | None => JS.throw JS.SyntaxError
                           end
                       | _ => mret r
                       end;
          analysisData ← analysisData parsedData fileData;
          mret (Some analysisData)
        else mret None
    | None => mret None
    end
  else mret None.

(** [analyzeData] up to its first [await]: nothing happens without a file;
    otherwise the request is sent for the file of this render. *)
Definition analyzeData_request (st : state) : option (FileData.t * state) :=
  match fileData st with
  | None => None
  | Some fd => Some (fd, setError None (setLoading true st))
  end.

(** [analyzeData] from the reply on, in the state the page has by then:
    the [if] branch, the [else] branch or the [catch], and the [finally]. *)
Definition analyzeData_reply (fd : FileData.t) (reply : fetched) (st : state)
    : state :=
  let st :=
    match attempt fd reply with
    | inr (Some analysisData) =>
        setActiveTab (JS.lit "summary") (setAnalysis (Some analysisData) st)
    | inr None => setError (Some analyze_failed_message) st
    | inl _ => setError (Some analyze_error_message) st
    end in
  setLoading false st.

(** [analyzeData], run to completion against the reply of the agent. *)
Definition analyzeData (reply : fetched) (st : state) : state :=
  match analyzeData_request st with
  | None => st
  | Some (fd, st) => analyzeData_reply fd reply st
  end.

End Analyze.
End PageAlt.

(** ** Vocabulary of the statements *)

(** Number of occurrences of a code unit in a string. *)
Fixpoint occurrences (c : N) (s : jsstring) : nat :=
  match s with
  | [] => 0
  | x :: s' => (if N.eqb x c then 1 else 0) + occurrences c s'
  end.

(** A string of white space only (the empty string included). *)
Definition blank (s : jsstring) : bool := forallb JS.is_ws s.

(** The text made of a header line and data lines, joined by newlines. *)
Definition lines_text (header : jsstring) (rows : list jsstring) : jsstring :=
  header ++ concat ((λ r, JS.nl :: r) <$> rows).

(** The lines of a text under plain splitting on newline, less the first. *)
Definition non_header_lines (text : jsstring) : nat :=
  length (JS.split JS.nl text) - 1.

(** The row mapping [parseCSV] builds for one data line. *)
Definition row_of (headers : list jsstring) (line : jsstring)
    : gmap (list N) (list N) :=
  let values := JS.trim <$> JS.split JS.comma line in
  JS.reduce (λ obj header idx,
               JS.obj_set header (JS.or_empty (values !! idx)) obj)
            headers ∅.

(** Position of the last occurrence of a header name. *)
Fixpoint last_index (h : jsstring) (headers : list jsstring) : option nat :=
  match headers with
  | [] => None
  | x :: rest =>
      match last_index h rest with
      | Some i => Some (S i)
      | None => if decide (x = h) then Some 0 else None
      end
  end.

(** The value the payload holds at [summary.completenessScore], if any. *)
Definition nested_score (payload : Json.t) : option Json.t :=
  Json.get_opt (Json.get_opt (Some payload) Json.summary) Json.completenessScore.

(** The decode step applied to the [response] field. *)
Definition decode `{Json.Builtins} (resp : Json.t) : option Json.t :=
  match resp with
  | Json.Str s => Json.JSON_parse s
  | _ => Some resp
  end.

(** The ways an analysis fails: the request or the reading of its body is
    rejected, the answer does not carry a truthy [success] flag, or its
    [response] is a string that does not decode. *)
Definition network_failure (reply : fetched) : Prop :=
  reply = FetchRejected ∨ reply = BodyRejected.

Definition non_success (reply : fetched) : Prop :=
  ∃ data, reply = Body data ∧
          Json.truthy (Json.get_opt (Some data) Json.success) = false.

Definition decode_failure `{Json.Builtins} (reply : fetched) : Prop :=
  ∃ data s, reply = Body data ∧
            Json.get_opt (Some data) Json.response = Some (Json.Str s) ∧
            Json.JSON_parse s = None.

(** The whole operation succeeds: flag set, payload present, decoded. *)
Definition full_success `{Json.Builtins} (reply : fetched) (parsed : Json.t)
    : Prop :=
  ∃ data resp, reply = Body data ∧
               Json.truthy (Json.get_opt (Some data) Json.success) ∧
               Json.get_opt (Some data) Json.response = Some resp ∧
               Json.truthy (Some resp) ∧
               decode resp = Some parsed.

(** Open parts fixed for running examples: a decoder that knows the texts
    [{}] and [null] and rejects every other text, among them the malformed
    ones the examples use; strings are given no numeric value. *)
Definition example_builtins : Json.Builtins := {|
  Json.JSON_parse s :=
    if decide (s = JS.lit "{}") then Some (Json.Obj [])
    else if decide (s = JS.lit "null") then Some Json.Null
    else None;
  Json.StringToNumber _ := PrimFloat.nan;
  Json.ObjectToString _ := JS.lit "[object Object]";
|}.

(** A file of 2048 characters with the shape of the sample data. *)
Definition example_file : FileData.t := {|
  FileData.name := JS.lit "sample_data.csv";
  FileData.size := 2048;
  FileData.rows := 15;
  FileData.columns := 6;
  FileData.headers := JS.lit <$> ["Name"; "Age"; "Salary"; "Department";
                                  "Experience"; "Performance"];
  FileData.preview := [];
|}.

(** What the user and the agent can do to the page. [Analyzed] is an
    analysis whose reply arrives before anything else happens. *)
Inductive event :=
| FileChosen (file : option (jsstring * jsstring))
| FileDropped (file : option File.t)
| SampleLoaded
| Cleared
| TabSelected (tab : jsstring)
| Analyzed (reply : fetched).

Definition handle `{Json.Builtins} (st : state) (e : event) : state :=
  match e with
  | FileChosen file => Page.handleFileUpload file st
  | FileDropped file => Page.handleDragDrop file st
  | SampleLoaded => Page.loadSampleData st
  | Cleared => Page.resetAnalysis st
  | TabSelected tab => setActiveTab tab st
  | Analyzed reply => Page.analyzeData reply st
  end.

(** The state after a sequence of events, from the first render on. *)
Definition after `{Json.Builtins} (events : list event) : state :=
  foldl handle initial events.

(** A header or cell as [parseCSV] stores it: trimmed and free of the two
    separators. *)
Definition clean (s : jsstring) : Prop :=
  JS.trim s = s ∧ (JS.comma ∉ s) ∧ (JS.nl ∉ s).

(** The first and the last code unit of a string are white space. *)
Definition starts_ws (s : jsstring) : bool :=
  match s with
  | c :: _ => JS.is_ws c
  | [] => false
  end.

Definition ends_ws (s : jsstring) : bool :=
  match last s with
  | Some c => JS.is_ws c
  | None => false
  end.

(** A text with Windows line ends: every newline preceded by a carriage
    return. *)
Definition crlf (s : jsstring) : jsstring :=
  s ≫= λ c, if N.eqb c JS.nl then [13%N; JS.nl] else [c].

(** The cell [csvContent] writes for the header [h] of a row. *)
Definition cell (function_text : jsstring → jsstring)
    (row : gmap (list N) (list N)) (h : jsstring) : jsstring :=
  JS.element_text function_text (JS.value_or_empty (JS.obj_get h row)).

(** What every handler keeps: no request is under way, the dataset is one
    [parseCSV] returned, and the analysis was built for that dataset. *)
Definition consistent `{Json.Builtins} (st : state) : Prop :=
  loading st = false ∧
  (∀ fd, fileData st = Some fd →
         ∃ text fileName, Page.parseCSV text fileName = inr fd) ∧
  (∀ a, analysis st = Some a →
        ∃ fd parsed, fileData st = Some fd ∧
                     Page.analysisData parsed fd = inr a).

(** An answer that is turned down: it is not [null], and its [success] or
    its [response] is falsy. *)
Definition refused (reply : fetched) : Prop :=
  ∃ data, reply = Body data ∧ data ≠ Json.Null ∧
          (Json.truthy (Json.get_opt (Some data) Json.success) = false ∨
           Json.truthy (Json.get_opt (Some data) Json.response) = false).

(** A payload the object literal can be built from: it is not [null], and
    the value the division takes, the truthy score or 85, converts to a
    number. *)
Definition usable (payload : Json.t) : Prop :=
  payload ≠ Json.Null ∧
  Json.unconvertible (Json.or_else (nested_score payload) (Json.Num 85)) = false.

(** An answer whose payload cannot be used: the flag is set and the
    [response] is there, but it does not decode, or it decodes to a payload
    that is not usable. *)
Definition unusable `{Json.Builtins} (reply : fetched) : Prop :=
  ∃ data resp, reply = Body data ∧
               Json.truthy (Json.get_opt (Some data) Json.success) ∧
               Json.get_opt (Some data) Json.response = Some resp ∧
               Json.truthy (Some resp) ∧
               (decode resp = None ∨
                ∃ parsed, decode resp = Some parsed ∧ ¬ usable parsed).

(** The five sections of a result that come from the payload. *)
Definition sections (r : AnalysisResult.t) : list Json.t :=
  [AnalysisResult.dataQuality r; AnalysisResult.statistics r;
   AnalysisResult.correlations r; AnalysisResult.patterns r;
   AnalysisResult.insights r].

(** The lines of a text once it has Windows line ends: all but the last
    end in a carriage return. *)
Fixpoint add_cr (lines : list jsstring) : list jsstring :=
  match lines with
  | [] => []
  | [l] => [l]
  | l :: rest => (l ++ [13%N]) :: add_cr rest
  end.

(** Changes the last element of a list. *)
Fixpoint on_last {A} (f : A → A) (l : list A) : list A :=
  match l with
  | [] => []
  | [x] => [f x]
  | x :: rest => x :: on_last f rest
  end.

(** The section of a result that a property name stands for, and the
    default the source gives for it. *)
Definition section_of (r : AnalysisResult.t) (p : Json.prop) : option Json.t :=
  match p with
  | Json.dataQuality => Some (AnalysisResult.dataQuality r)
  | Json.statistics => Some (AnalysisResult.statistics r)
  | Json.correlations => Some (AnalysisResult.correlations r)
  | Json.patterns => Some (AnalysisResult.patterns r)
  | Json.insights => Some (AnalysisResult.insights r)
  | _ => None
  end.

Definition default_section (p : Json.prop) : option Json.t :=
  match p with
  | Json.dataQuality =>
      Some (Json.Obj [(JS.lit "missingValues", Json.Obj []);
                      (JS.lit "duplicateRows", Json.Num 0);
                      (JS.lit "dataTypeIssues", Json.Arr [])])
  | Json.statistics => Some (Json.Obj [])
  | Json.correlations => Some (Json.Arr [])
  | Json.patterns =>
      Some (Json.Obj [(JS.lit "trends", Json.Arr []);
                      (JS.lit "distributions", Json.Obj []);
                      (JS.lit "outliers", Json.Arr [])])
  | Json.insights => Some (Json.Arr [])
  | _ => None
  end.

(** Reading a printed number back.  [decimal_value s] is the number that
    the decimal digits [s] write, most significant digit first, and nothing
    for a text that is empty or holds another character.  A whole part has
    [no_leading_zero] when it is the single digit 0 or starts with another
    digit. *)
Fixpoint decimal_from (acc : N) (s : jsstring) : option N :=
  match s with
  | [] => Some acc
  | c :: s' =>
      if ((48 <=? c) && (c <=? 57))%N then decimal_from (10 * acc + (c - 48)) s'
      else None
  end.

Definition decimal_value (s : jsstring) : option N :=
  match s with
  | [] => None
  | _ => decimal_from 0 s
  end.

Definition no_leading_zero (whole : jsstring) : Prop :=
  whole = [48%N] ∨ ∃ c rest, whole = c :: rest ∧ c ≠ 48%N.

(** The value of the library's digit sequences, read the same way. *)
Fixpoint uval (acc : N) (d : Decimal.uint) : N :=
  match d with
  | Decimal.Nil => acc
  | Decimal.D0 d => uval (10 * acc) d
  | Decimal.D1 d => uval (10 * acc + 1) d
  | Decimal.D2 d => uval (10 * acc + 2) d
  | Decimal.D3 d => uval (10 * acc + 3) d
  | Decimal.D4 d => uval (10 * acc + 4) d
  | Decimal.D5 d => uval (10 * acc + 5) d
  | Decimal.D6 d => uval (10 * acc + 6) d
  | Decimal.D7 d => uval (10 * acc + 7) d
  | Decimal.D8 d => uval (10 * acc + 8) d
  | Decimal.D9 d => uval (10 * acc + 9) d
  end%N.

(** ** Splitting and trimming *)

Lemma split_length sep s : length (JS.split sep s) = S (occurrences sep s).
Proof.
  induction s as [|c s IH]; simpl; [done|].
  destruct (N.eqb c sep); simpl; [by rewrite IH|].
  destruct (JS.split sep s); simpl in *; lia.
Qed.

Lemma split_nonempty sep s : JS.split sep s ≠ [].
Proof.
  intros E. pose proof (split_length sep s) as L. rewrite E in L. discriminate.
Qed.

Lemma occurrences_app c s t :
  occurrences c (s ++ t) = occurrences c s + occurrences c t.
Proof. induction s as [|x s IH]; simpl; [done|]. rewrite IH. lia. Qed.

Lemma occurrences_none c s : c ∉ s → occurrences c s = 0.
Proof.
  induction s as [|x s IH]; simpl; [done|].
  intros Hn. apply not_elem_of_cons in Hn as [Hx Hs].
  destruct (N.eqb_spec x c); [congruence|]. by rewrite IH.
Qed.

Lemma blank_app s t : blank (s ++ t) = blank s && blank t.
Proof. apply forallb_app. Qed.

Lemma blank_reverse s : blank (reverse s) = blank s.
Proof.
  induction s as [|c s IH]; [done|].
  rewrite reverse_cons, blank_app, IH. simpl. by destruct (JS.is_ws c), (blank s).
Qed.

Lemma trimStart_blank w s : blank w → JS.trimStart (w ++ s) = JS.trimStart s.
Proof.
  induction w as [|c w IH]; simpl; [done|].
  destruct (JS.is_ws c); simpl; [exact IH | done].
Qed.

Lemma trimStart_all_blank w : blank w → JS.trimStart w = [].
Proof.
  intros Hw. rewrite <- (app_nil_r w). by rewrite trimStart_blank.
Qed.

Lemma trimStart_nonblank s t :
  blank s = false → JS.trimStart (s ++ t) = JS.trimStart s ++ t.
Proof.
  induction s as [|c s IH]; simpl; [done|].
  destruct (JS.is_ws c); simpl; [exact IH | done].
Qed.

Lemma trimStart_elem x s : x ∈ JS.trimStart s → x ∈ s.
Proof.
  induction s as [|c s IH]; simpl; [done|].
  destruct (JS.is_ws c); [|done]. intros Hx. right. by apply IH.
Qed.

Lemma trimEnd_blank s w : blank w → JS.trimEnd (s ++ w) = JS.trimEnd s.
Proof.
  intros Hw. unfold JS.trimEnd. rewrite reverse_app, trimStart_blank; [done|].
  by rewrite blank_reverse.
Qed.

Lemma trimEnd_nonblank s t :
  blank t = false → JS.trimEnd (s ++ t) = s ++ JS.trimEnd t.
Proof.
  intros Ht. unfold JS.trimEnd.
  rewrite reverse_app, trimStart_nonblank by by rewrite blank_reverse.
  by rewrite reverse_app, reverse_involutive.
Qed.

Lemma trimEnd_elem x s : x ∈ JS.trimEnd s → x ∈ s.
Proof.
  unfold JS.trimEnd. rewrite elem_of_reverse. intros Hx.
  apply trimStart_elem in Hx. by rewrite elem_of_reverse in Hx.
Qed.

Lemma trim_elem x s : x ∈ JS.trim s → x ∈ s.
Proof. intros Hx. by apply trimStart_elem, trimEnd_elem. Qed.

(** Trailing white space, newlines included, never reaches the splitter. *)
Lemma trim_blank_r s w : blank w → JS.trim (s ++ w) = JS.trim s.
Proof.
  intros Hw. unfold JS.trim. destruct (blank s) eqn:Hs.
  - assert (Is_true (blank (s ++ w))) as Hsw.
    { rewrite blank_app, Hs. simpl. exact Hw. }
    rewrite (trimStart_all_blank _ Hsw), (trimStart_all_blank s); [done|].
    by rewrite Hs.
  - rewrite trimStart_nonblank by done. by rewrite trimEnd_blank.
Qed.

Lemma trim_blank_l w s : blank w → JS.trim (w ++ s) = JS.trim s.
Proof. intros Hw. unfold JS.trim. by rewrite trimStart_blank. Qed.

(** ** [parseCSV] *)

(** [parseCSV] always reaches its [return]: the split of the trimmed text
    has a first line, and the record is built from it and the rest. *)
Lemma parseCSV_returns text fileName :
  ∃ line0 rest,
    JS.split JS.nl (JS.trim text) = line0 :: rest ∧
    Page.parseCSV text fileName =
      inr {| FileData.name := fileName;
             FileData.size := length text;
             FileData.rows := length rest;
             FileData.columns := length (JS.split JS.comma line0);
             FileData.headers := JS.trim <$> JS.split JS.comma line0;
             FileData.preview :=
               take 10 (row_of (JS.trim <$> JS.split JS.comma line0) <$> rest) |}.
Proof.
  destruct (JS.split JS.nl (JS.trim text)) as [|line0 rest] eqn:E.
  { by apply split_nonempty in E. }
  exists line0, rest. split; [done|].
  unfold Page.parseCSV. rewrite E. cbn.
  by rewrite !length_fmap.
Qed.

Lemma parseCSV_rows text fileName fd :
  Page.parseCSV text fileName = inr fd →
  FileData.rows fd = occurrences JS.nl (JS.trim text) ∧
  length (FileData.preview fd) = min (FileData.rows fd) 10.
Proof.
  destruct (parseCSV_returns text fileName) as (line0 & rest & E & ->).
  intros [= <-]. cbn.
  pose proof (split_length JS.nl (JS.trim text)) as L. rewrite E in L.
  cbn in L. split; [lia|].
  rewrite length_take, length_fmap. lia.
Qed.

(** The sample data of the page: 15 rows, 6 columns, 10 rows previewed. *)
Example sample_data_shape :
  ∃ fd, Page.parseCSV Page.SAMPLE_CSV (JS.lit "sample_data.csv") = inr fd ∧
        FileData.rows fd = 15 ∧ FileData.columns fd = 6 ∧
        length (FileData.preview fd) = 10 ∧
        FileData.headers fd = FileData.headers example_file.
Proof.
  destruct (parseCSV_returns Page.SAMPLE_CSV (JS.lit "sample_data.csv"))
    as (line0 & rest & Hsplit & E).
  eexists. split; [exact E|]. cbn [FileData.rows FileData.columns
                                   FileData.preview FileData.headers].
  vm_compute in Hsplit. injection Hsplit as <- <-.
  by vm_compute.
Qed.

Lemma occurrences_rows rows :
  Forall (λ r, JS.nl ∉ r) rows →
  occurrences JS.nl (concat ((λ r, JS.nl :: r) <$> rows)) = length rows.
Proof.
  induction 1 as [|r rows Hr _ IH]; [done|].
  cbn [fmap list_fmap concat length]. rewrite occurrences_app, IH. cbn.
  by rewrite occurrences_none.
Qed.

(** Trimming a text whose first and last lines are not blank removes no
    newline. *)
Lemma trim_keeps_lines header rows :
  JS.nl ∉ header → Forall (λ r, JS.nl ∉ r) rows →
  blank header = false → blank (default header (last rows)) = false →
  occurrences JS.nl (JS.trim (lines_text header rows)) = length rows.
Proof.
  intros Hh Hrows Bh Bl. unfold lines_text.
  destruct rows as [|r0 rows0] using rev_ind.
  - cbn. rewrite app_nil_r. apply occurrences_none.
    intros Hin. by apply trim_elem in Hin.
  - clear IHrows0. rewrite last_snoc in Bl. cbn in Bl.
    apply Forall_app in Hrows as [Hrows Hr0].
    rewrite Forall_singleton in Hr0.
    rewrite fmap_app, concat_app. cbn. rewrite app_nil_r.
    unfold JS.trim. rewrite trimStart_nonblank by done.
    replace (JS.trimStart header ++
             concat ((λ r, JS.nl :: r) <$> rows0) ++ JS.nl :: r0)
      with ((JS.trimStart header ++
             concat ((λ r, JS.nl :: r) <$> rows0) ++ [JS.nl]) ++ r0)
      by by rewrite <- !app_assoc.
    rewrite trimEnd_nonblank by done.
    rewrite !occurrences_app, occurrences_rows by done.
    rewrite (occurrences_none _ (JS.trimStart header)),
            (occurrences_none _ (JS.trimEnd r0)).
    + rewrite length_app. cbn. lia.
    + intros Hin. apply trimEnd_elem in Hin. exact (Hr0 Hin).
    + intros Hin. apply trimStart_elem in Hin. exact (Hh Hin).
Qed.

(** C1, as stated, fails: with the header line [name,age] followed by the
    two data lines [Ann,31] and a line holding one space, [parseCSV]
    reports one row, because the text is trimmed before it is split. *)
Lemma data_lines_counterexample :
  let header := JS.lit "name,age" in
  let rows := [JS.lit "Ann,31"; JS.lit " "] in
  (JS.nl ∉ header) ∧ Forall (λ r, JS.nl ∉ r) rows ∧ length rows = 2 ∧
  ∃ fd, Page.parseCSV (lines_text header rows) (JS.lit "people.csv") = inr fd ∧
        FileData.rows fd = 1 ∧ FileData.rows fd ≠ length rows.
Proof.
  cbv zeta. split; [|split; [|split]].
  - by apply (bool_decide_unpack _).
  - by apply (bool_decide_unpack _).
  - reflexivity.
  - eexists. split; [vm_compute; reflexivity|]. by vm_compute.
Qed.

(** C1, amended: for a header line and K data lines of which the first and
    the last line of the text are not blank, followed by any trailing white
    space, [parseCSV] reports K rows and keeps min(K, 10) of them in the
    preview; and for every text the preview holds min(rows, 10) rows. *)
Theorem parseCSV_counts_data_lines :
  (∀ header rows trailing fileName,
     JS.nl ∉ header → Forall (λ r, JS.nl ∉ r) rows →
     blank header = false → blank (default header (last rows)) = false →
     blank trailing →
     ∃ fd, Page.parseCSV (lines_text header rows ++ trailing) fileName = inr fd ∧
           FileData.rows fd = length rows ∧
           length (FileData.preview fd) = min (length rows) 10) ∧
  (∀ text fileName,
     ∃ fd, Page.parseCSV text fileName = inr fd ∧
           length (FileData.preview fd) = min (FileData.rows fd) 10).
Proof.
  split.
  - intros header rows trailing fileName Hh Hrows Bh Bl Bt.
    destruct (parseCSV_returns (lines_text header rows ++ trailing) fileName)
      as (line0 & rest & _ & E).
    eexists. split; [exact E|].
    apply parseCSV_rows in E as [R P]. cbn in R, P |- *.
    rewrite trim_blank_r, trim_keeps_lines in R by done.
    rewrite P, R. done.
  - intros text fileName.
    destruct (parseCSV_returns text fileName) as (line0 & rest & _ & E).
    eexists. split; [exact E|]. by apply parseCSV_rows in E as [_ P].
Qed.

Lemma parseCSV_counts_data_lines_witness :
  ∃ fd, Page.parseCSV
          (lines_text (JS.lit "name,age") [JS.lit "Ann,31"; JS.lit "Bob,27"]
             ++ [JS.nl]) (JS.lit "people.csv") = inr fd ∧
        FileData.rows fd = 2 ∧ length (FileData.preview fd) = 2.
Proof.
  apply (proj1 parseCSV_counts_data_lines
           (JS.lit "name,age") [JS.lit "Ann,31"; JS.lit "Bob,27"] [JS.nl]
           (JS.lit "people.csv")).
  - apply (bool_decide_unpack _). vm_compute. exact I.
  - apply (bool_decide_unpack _). vm_compute. exact I.
  - vm_compute. reflexivity.
  - vm_compute. reflexivity.
  - vm_compute. exact I.
Defined.

(** C5, as stated, fails: the text [a,b], newline, [1,2], newline has two
    lines after the header under plain splitting, the last one empty, and
    [parseCSV] reports one row. *)
Lemma trailing_newline_counterexample :
  let text := JS.lit "a,b" ++ [JS.nl] ++ JS.lit "1,2" ++ [JS.nl] in
  non_header_lines text = 2 ∧
  ∃ fd, Page.parseCSV text (JS.lit "t.csv") = inr fd ∧ FileData.rows fd = 1 ∧
        FileData.rows fd ≠ non_header_lines text.
Proof.
  cbv zeta. split; [by vm_compute|].
  eexists. split; [vm_compute; reflexivity|]. by vm_compute.
Qed.

(** C5, amended: the row count is the number of lines after the header in
    the trimmed text, that is the number of newlines left once leading and
    trailing white space is stripped; blank lines inside the text are
    counted, and white space put before or after a text leaves its row
    count as it is. *)
Theorem parseCSV_rows_of_trimmed_text :
  ∀ text fileName,
    ∃ fd, Page.parseCSV text fileName = inr fd ∧
          FileData.rows fd = non_header_lines (JS.trim text) ∧
          FileData.rows fd = occurrences JS.nl (JS.trim text) ∧
          ∀ before after, blank before → blank after →
            ∃ fd', Page.parseCSV (before ++ text ++ after) fileName = inr fd' ∧
                   FileData.rows fd' = FileData.rows fd.
Proof.
  intros text fileName.
  destruct (parseCSV_returns text fileName) as (line0 & rest & _ & E).
  eexists. split; [exact E|].
  apply parseCSV_rows in E as [R _]. cbn in R |- *.
  split; [|split; [exact R|]].
  - unfold non_header_lines. rewrite split_length, R. lia.
  - intros before after Hb Ha.
    destruct (parseCSV_returns (before ++ text ++ after) fileName)
      as (line0' & rest' & _ & E').
    eexists. split; [exact E'|].
    apply parseCSV_rows in E' as [R' _]. cbn in R' |- *.
    by rewrite R', R, trim_blank_l, trim_blank_r.
Qed.

Lemma parseCSV_rows_of_trimmed_text_witness :
  ∃ fd', Page.parseCSV ([JS.nl] ++ (JS.lit "a,b" ++ [JS.nl; JS.nl] ++ JS.lit "1,2")
                          ++ [JS.nl; JS.nl]) (JS.lit "t.csv") = inr fd' ∧
         FileData.rows fd' = 2.
Proof.
  destruct (parseCSV_rows_of_trimmed_text
              (JS.lit "a,b" ++ [JS.nl; JS.nl] ++ JS.lit "1,2") (JS.lit "t.csv"))
    as (fd & E & _ & R & Hws).
  destruct (Hws [JS.nl] [JS.nl; JS.nl]) as (fd' & E' & R').
  - vm_compute. exact I.
  - vm_compute. exact I.
  - exists fd'. split; [exact E'|]. rewrite R', R. vm_compute. reflexivity.
Defined.

(** C9: [parseCSV] returns for every text, since a split is never empty and
    its first line can always be read; the [catch] of the upload handler is
    therefore never entered, the [try] commits the parsed file; and the
    empty text gives no row and the single header [''] . *)
Theorem parseCSV_total :
  (∀ text fileName, ∃ fd, Page.parseCSV text fileName = inr fd) ∧
  (∀ sep s, JS.split sep s ≠ []) ∧
  (∀ fileName text st,
     ∃ fd, Page.parseCSV text fileName = inr fd ∧
           Page.handleFileUpload (Some (fileName, text)) st =
             setAnalysis None (setFileData (Some fd) (setError None st)) ∧
           error (Page.handleFileUpload (Some (fileName, text)) st) = None) ∧
  (∀ fileName,
     Page.parseCSV [] fileName =
       inr {| FileData.name := fileName; FileData.size := 0;
              FileData.rows := 0; FileData.columns := 1;
              FileData.headers := [[]]; FileData.preview := [] |}).
Proof.
  split; [|split; [|split]].
  - intros text fileName.
    destruct (parseCSV_returns text fileName) as (? & ? & _ & E). eauto.
  - apply split_nonempty.
  - intros fileName text st.
    destruct (parseCSV_returns text fileName) as (? & ? & _ & E).
    eexists. split; [exact E|]. unfold Page.handleFileUpload, Page.onload.
    rewrite E. done.
  - done.
Qed.

(** ** Row mappings *)

Lemma last_index_Some h headers i :
  last_index h headers = Some i →
  headers !! i = Some h ∧ ∀ j, i < j → headers !! j ≠ Some h.
Proof.
  revert i. induction headers as [|x rest IH]; intros i; simpl; [done|].
  destruct (last_index h rest) as [k|] eqn:E.
  - intros [= <-]. destruct (IH k eq_refl) as [Hk Hlast]. split; [done|].
    intros [|j] Hj; [lia|]. simpl. apply Hlast. lia.
  - case_decide as Hx; [|done]. intros [= <-]. subst x. split; [done|].
    intros [|j] Hj Hjh; [lia|]. simpl in Hjh.
    clear IH Hj. revert j Hjh.
    induction rest as [|y rest IH]; intros j; [done|].
    simpl in E. destruct (last_index h rest) eqn:E'; [done|].
    case_decide as Hy; [done|].
    destruct j as [|j]; simpl; [congruence|]. by apply IH.
Qed.

Lemma last_index_elem h headers :
  h ∈ headers ↔ is_Some (last_index h headers).
Proof.
  induction headers as [|x rest IH]; simpl.
  - split; [by intros ?%elem_of_nil | by intros [? ?]].
  - rewrite elem_of_cons, IH.
    destruct (last_index h rest) as [k|]; [by split; eauto|].
    case_decide as Hx; split.
    + eauto.
    + intros _. by left.
    + intros [-> | [? ?]]; done.
    + by intros [? ?].
Qed.

(** The fold of [parseCSV] over the headers, from any index and object:
    a name is bound to the value at its last position, except that
    [__proto__] is left as it was. *)
Lemma reduce_row_lookup (values : list jsstring) headers k acc h :
  JS.reduce_from
    (λ obj header idx, JS.obj_set header (JS.or_empty (values !! idx)) obj)
    headers k acc !! h =
  match last_index h headers with
  | Some i =>
      if decide (h = JS.lit "__proto__") then acc !! h
      else Some (JS.or_empty (values !! (k + i)))
  | None => acc !! h
  end.
Proof.
  revert k acc. induction headers as [|x rest IH]; intros k acc;
    cbn [JS.reduce_from last_index]; [done|].
  rewrite IH. unfold JS.obj_set.
  destruct (last_index h rest) as [i|].
  - destruct (decide (h = JS.lit "__proto__")) as [Hh|Hh].
    + destruct (decide (x = JS.lit "__proto__")) as [Hx|Hx]; [done|].
      rewrite lookup_insert_ne; [done|congruence].
    + by replace (S k + i) with (k + S i) by lia.
  - destruct (decide (x = h)) as [->|Hxh].
    + destruct (decide (h = JS.lit "__proto__")) as [Hh|Hh]; [done|].
      by rewrite lookup_insert_eq, Nat.add_0_r.
    + destruct (decide (x = JS.lit "__proto__")) as [Hx|Hx]; [done|].
      by rewrite lookup_insert_ne.
Qed.

Lemma row_of_lookup headers line h :
  row_of headers line !! h =
  match last_index h headers with
  | Some i =>
      if decide (h = JS.lit "__proto__") then None
      else Some (JS.or_empty ((JS.trim <$> JS.split JS.comma line) !! i))
  | None => None
  end.
Proof.
  unfold row_of, JS.reduce. rewrite reduce_row_lookup.
  destruct (last_index h headers); [|done]. by case_decide.
Qed.

(** Values are paired with headers by position, a header beyond the values
    of the line maps to [''], values beyond the headers are not stored at
    all, and the keys are the headers: all this for every header name but
    [__proto__], which never becomes a key. *)
Lemma row_of_pairs headers line :
  let values := JS.trim <$> JS.split JS.comma line in
  (∀ h, h ∈ dom (row_of headers line) ↔ h ∈ headers ∧ h ≠ JS.lit "__proto__") ∧
  (∀ i h, headers !! i = Some h → h ≠ JS.lit "__proto__" →
          (∀ j, i < j → headers !! j ≠ Some h) →
          row_of headers line !! h = Some (JS.or_empty (values !! i))) ∧
  (∀ i h, headers !! i = Some h → h ≠ JS.lit "__proto__" →
          length values ≤ i → row_of headers line !! h = Some []).
Proof.
  cbv zeta. split; [|split].
  - intros h. rewrite elem_of_dom, row_of_lookup, last_index_elem.
    destruct (last_index h headers) as [i|].
    + case_decide; split; [by intros [? ?]|by intros [_ ?]|eauto|eauto].
    + split; [by intros [? ?]|by intros [[? ?] _]].
  - intros i h Hi Hh Hlast. rewrite row_of_lookup.
    destruct (last_index h headers) as [k|] eqn:E.
    + apply last_index_Some in E as [Hk Hk'].
      destruct (decide (i = k)) as [->|Hne]; [by case_decide|].
      destruct (decide (i < k)) as [Hlt|Hge].
      * by destruct (Hlast k Hlt).
      * destruct (Hk' i); [lia|done].
    + assert (is_Some (last_index h headers)) as [? ?]; [|congruence].
      apply last_index_elem. by eapply list_elem_of_lookup_2.
  - intros i h Hi Hh Hlen. rewrite row_of_lookup.
    destruct (last_index h headers) as [k|] eqn:E.
    + apply last_index_Some in E as [Hk Hk'].
      case_decide; [done|].
      assert (i ≤ k) as Hik.
      { destruct (decide (i ≤ k)); [done|]. destruct (Hk' i); [lia|done]. }
      rewrite (lookup_ge_None_2 _ k); [done|lia].
    + assert (is_Some (last_index h headers)) as [? ?]; [|congruence].
      apply last_index_elem. by eapply list_elem_of_lookup_2.
Qed.

(** With a repeated header name the last position wins, for every name but
    [__proto__]. *)
Lemma row_of_last_wins headers line h i :
  h ≠ JS.lit "__proto__" →
  headers !! i = Some h → (∀ j, i < j → headers !! j ≠ Some h) →
  row_of headers line !! h =
    Some (JS.or_empty ((JS.trim <$> JS.split JS.comma line) !! i)).
Proof. intros Hh Hi Hlast. by apply (row_of_pairs headers line). Qed.

(** C6 at the header name [__proto__]: for the text [__proto__,b], newline,
    [1,2] the headers are [__proto__] and [b], and the row mapping has the
    single key [b]; the value [1] of the first column is stored nowhere. *)
Theorem proto_header_is_no_key :
  let text := JS.lit "__proto__,b" ++ [JS.nl] ++ JS.lit "1,2" in
  let row := row_of [JS.lit "__proto__"; JS.lit "b"] (JS.lit "1,2") in
  Page.parseCSV text (JS.lit "t.csv") =
    inr {| FileData.name := JS.lit "t.csv"; FileData.size := 15;
           FileData.rows := 1; FileData.columns := 2;
           FileData.headers := [JS.lit "__proto__"; JS.lit "b"];
           FileData.preview := [row] |} ∧
  row !! JS.lit "__proto__" = None ∧
  row !! JS.lit "b" = Some (JS.lit "2") ∧
  dom row = {[JS.lit "b"]}.
Proof.
  cbv zeta. split; [by vm_compute|]. split; [by vm_compute|].
  split; [by vm_compute|].
  apply set_eq. intros h. rewrite elem_of_singleton.
  rewrite (proj1 (row_of_pairs _ _)).
  rewrite !elem_of_cons, elem_of_nil. split.
  - intros [[-> | [-> | []]] Hne]; done.
  - intros ->. split; [by right; left|]. by vm_compute.
Qed.

(** C7 at the header name [__proto__]: for the text [__proto__,__proto__],
    newline, [1,2] the name occurs last at position 1, where the line has
    the value [2], and the row mapping does not bind the name at all. *)
Theorem repeated_proto_header_is_unbound :
  let text := JS.lit "__proto__,__proto__" ++ [JS.nl] ++ JS.lit "1,2" in
  let headers := [JS.lit "__proto__"; JS.lit "__proto__"] in
  let row := row_of headers (JS.lit "1,2") in
  Page.parseCSV text (JS.lit "t.csv") =
    inr {| FileData.name := JS.lit "t.csv"; FileData.size := 23;
           FileData.rows := 1; FileData.columns := 2;
           FileData.headers := headers;
           FileData.preview := [row] |} ∧
  last_index (JS.lit "__proto__") headers = Some 1 ∧
  (JS.trim <$> JS.split JS.comma (JS.lit "1,2")) !! 1 = Some (JS.lit "2") ∧
  row !! JS.lit "__proto__" = None ∧
  row = ∅.
Proof.
  cbv zeta. repeat split; by vm_compute.
Qed.

(** ** The analysis result *)

(** Runs the sequencing of the [try] block one step. *)
Ltac run :=
  cbv beta iota delta [mbind JS.result_bind mret JS.result_ret JS.throw].

Section Normalizer.
Context `{Json.Builtins}.

Lemma ToNumber_converts v :
  match Json.ToNumber v with
  | inr _ => Json.unconvertible v = false
  | inl e => e = JS.TypeError ∧ Json.unconvertible v = true
  end.
Proof.
  destruct v; try done; unfold Json.ToNumber;
    by destruct (Json.unconvertible _).
Qed.

(** The payloads the object literal throws on are [null] and those whose
    score does not convert; for any other every field is the payload's
    section when truthy and its default otherwise, next to the counts and
    the size of the file. *)
Lemma analysisData_value payload fd :
  Page.analysisData payload fd =
  match payload with
  | Json.Null => inl JS.TypeError
  | _ =>
    let section p := Json.get_opt (Some payload) p in
    match Json.ToNumber (Json.or_else (nested_score payload) (Json.Num 85)) with
    | inl e => inl e
    | inr percent =>
      inr {|
        AnalysisResult.summary := {|
          AnalysisResult.totalRows := FileData.rows fd;
          AnalysisResult.totalColumns := FileData.columns fd;
          AnalysisResult.completenessScore := (percent / 100)%float;
          AnalysisResult.memorySize :=
            Fmt.toFixed 2 (Fmt.div1024 (FileData.size fd)) ++ JS.lit " KB";
        |};
        AnalysisResult.dataQuality :=
          Json.or_else (section Json.dataQuality)
            (Json.Obj [(JS.lit "missingValues", Json.Obj []);
                       (JS.lit "duplicateRows", Json.Num 0);
                       (JS.lit "dataTypeIssues", Json.Arr [])]);
        AnalysisResult.statistics :=
          Json.or_else (section Json.statistics) (Json.Obj []);
        AnalysisResult.correlations :=
          Json.or_else (section Json.correlations) (Json.Arr []);
        AnalysisResult.patterns :=
          Json.or_else (section Json.patterns)
            (Json.Obj [(JS.lit "trends", Json.Arr []);
                       (JS.lit "distributions", Json.Obj []);
                       (JS.lit "outliers", Json.Arr [])]);
        AnalysisResult.insights :=
          Json.or_else (section Json.insights) (Json.Arr []);
      |}
    end
  end.
Proof.
  destruct payload; [done|..]; unfold Page.analysisData, nested_score;
    cbv [Json.get]; run; cbv zeta;
    by destruct (Json.ToNumber _).
Qed.

Lemma analysisData_summary payload fd r :
  Page.analysisData payload fd = inr r →
  AnalysisResult.totalRows (AnalysisResult.summary r) = FileData.rows fd ∧
  AnalysisResult.totalColumns (AnalysisResult.summary r) = FileData.columns fd ∧
  (∃ percent,
     Json.ToNumber (Json.or_else (nested_score payload) (Json.Num 85))
       = inr percent ∧
     AnalysisResult.completenessScore (AnalysisResult.summary r)
       = (percent / 100)%float) ∧
  AnalysisResult.memorySize (AnalysisResult.summary r) =
    Fmt.toFixed 2 (Fmt.div1024 (FileData.size fd)) ++ JS.lit " KB".
Proof.
  rewrite analysisData_value. destruct payload; [done|..]; cbv zeta;
    (destruct (Json.ToNumber _) as [e|percent]; [done|]);
    intros [= <-]; repeat split; by exists percent.
Qed.

(** The object literal is built exactly for the usable payloads, and
    throws a [TypeError] for the others. *)
Lemma analysisData_usable payload fd :
  (usable payload ∧ ∃ r, Page.analysisData payload fd = inr r) ∨
  (¬ usable payload ∧ Page.analysisData payload fd = inl JS.TypeError).
Proof.
  rewrite analysisData_value. unfold usable.
  pose proof (ToNumber_converts
                (Json.or_else (nested_score payload) (Json.Num 85))) as Hc.
  destruct payload; [right; split; [by intros [? _]|done]|..]; cbv zeta;
    (destruct (Json.ToNumber _) as [e|percent];
     [destruct Hc as [-> Hc]; right; split; [by intros [_ ?]; congruence|done]
     |left; split; [done|eauto]]).
Qed.

End Normalizer.

(** C2 at the value 0: a payload whose [summary.completenessScore] is
    present and 0 gets the default score 0.85 instead of 0 / 100, because
    [||] takes the falsy number 0 for a missing one. *)
Theorem zero_score_is_defaulted `{Json.Builtins} fd :
  let payload :=
    Json.Obj [(JS.lit "summary",
               Json.Obj [(JS.lit "completenessScore", Json.Num 0)])] in
  nested_score payload = Some (Json.Num 0) ∧
  ∃ r, Page.analysisData payload fd = inr r ∧
       AnalysisResult.completenessScore (AnalysisResult.summary r) = 0.85%float ∧
       AnalysisResult.completenessScore (AnalysisResult.summary r)
         ≠ (0 / 100)%float.
Proof.
  cbv zeta. split; [by vm_compute|].
  eexists. split; [by rewrite analysisData_value|].
  cbn [AnalysisResult.completenessScore AnalysisResult.summary]. split.
  - by vm_compute.
  - intros E. apply (f_equal (PrimFloat.ltb 0)) in E. vm_compute in E.
    discriminate.
Qed.

(** X13: the score for every payload: the nested value divided by 100 when that
    value is truthy, in particular for every number other than 0 and NaN;
    0.85 when the value is absent, and also when it is present but falsy
    (0, NaN, [null], [false] or ['']). *)
Lemma completenessScore_of_payload `{Json.Builtins} payload fd r :
  Page.analysisData payload fd = inr r →
  let score := AnalysisResult.completenessScore (AnalysisResult.summary r) in
  (∀ x, nested_score payload = Some (Json.Num x) →
        PrimFloat.eqb x 0 = false → Json.is_nan x = false →
        score = (x / 100)%float) ∧
  (∀ v, nested_score payload = Some v → Json.truthy (Some v) →
        ∃ percent, Json.ToNumber v = inr percent ∧
                   score = (percent / 100)%float) ∧
  (nested_score payload = None → score = 0.85%float) ∧
  (Json.truthy (nested_score payload) = false → score = 0.85%float).
Proof.
  intros E. apply analysisData_summary in E as (_ & _ & (percent & Hp & ->) & _).
  assert (∀ v, nested_score payload = Some v → Json.truthy (Some v) →
               Json.ToNumber v = inr percent) as Htruthy.
  { intros v Hv Ht. rewrite Hv in Hp. unfold Json.or_else in Hp.
    by destruct (Json.truthy (Some v)). }
  assert (Json.truthy (nested_score payload) = false →
          (percent / 100)%float = 0.85%float) as Hfalsy.
  { intros Hf. unfold Json.or_else in Hp.
    destruct (nested_score payload) as [v|].
    - rewrite Hf in Hp. injection Hp as <-. by vm_compute.
    - injection Hp as <-. by vm_compute. }
  cbv zeta. split; [|split; [|split; [|exact Hfalsy]]].
  - intros x Hx H0 Hnan. assert (Json.ToNumber (Json.Num x) = inr percent) as Hn.
    { apply Htruthy; [done|]. cbn. by rewrite H0, Hnan. }
    by injection Hn as ->.
  - intros v Hv Ht. exists percent. split; [by apply Htruthy|done].
  - intros Hn. apply Hfalsy. by rewrite Hn.
Qed.

Lemma completenessScore_of_payload_witness :
  let payload :=
    Json.Obj [(JS.lit "summary",
               Json.Obj [(JS.lit "completenessScore", Json.Num 92)])] in
  ∃ r, @Page.analysisData example_builtins payload example_file = inr r ∧
       AnalysisResult.completenessScore (AnalysisResult.summary r)
         = (92 / 100)%float.
Proof.
  cbv zeta.
  pose proof (@analysisData_value example_builtins
                (Json.Obj [(JS.lit "summary",
                            Json.Obj [(JS.lit "completenessScore",
                                       Json.Num 92)])])
                example_file) as E.
  cbv beta iota zeta in E.
  eexists. split; [exact E|].
  apply (proj1 (@completenessScore_of_payload example_builtins _ _ _ E)
           92%float).
  - vm_compute. reflexivity.
  - vm_compute. reflexivity.
  - vm_compute. reflexivity.
Defined.

(** C3: whatever the payload, the row and column counts of the result are
    those of the file; two payloads, however they differ, give the same
    counts for the same file. *)
Theorem counts_come_from_the_file `{Json.Builtins} payload1 payload2 fd r1 r2 :
  Page.analysisData payload1 fd = inr r1 →
  Page.analysisData payload2 fd = inr r2 →
  AnalysisResult.totalRows (AnalysisResult.summary r1) = FileData.rows fd ∧
  AnalysisResult.totalColumns (AnalysisResult.summary r1) = FileData.columns fd ∧
  AnalysisResult.totalRows (AnalysisResult.summary r2)
    = AnalysisResult.totalRows (AnalysisResult.summary r1) ∧
  AnalysisResult.totalColumns (AnalysisResult.summary r2)
    = AnalysisResult.totalColumns (AnalysisResult.summary r1).
Proof.
  intros E1 E2.
  apply analysisData_summary in E1 as (R1 & C1 & _).
  apply analysisData_summary in E2 as (R2 & C2 & _).
  by rewrite R1, C1, R2, C2.
Qed.

Lemma counts_come_from_the_file_witness :
  let payload :=
    Json.Obj [(JS.lit "summary",
               Json.Obj [(JS.lit "totalRows", Json.Num 999);
                         (JS.lit "totalColumns", Json.Num 999)])] in
  ∃ r, @Page.analysisData example_builtins payload example_file = inr r ∧
       AnalysisResult.totalRows (AnalysisResult.summary r) = 15 ∧
       AnalysisResult.totalColumns (AnalysisResult.summary r) = 6.
Proof.
  cbv zeta.
  pose proof (@analysisData_value example_builtins
                (Json.Obj [(JS.lit "summary",
                            Json.Obj [(JS.lit "totalRows", Json.Num 999);
                                      (JS.lit "totalColumns", Json.Num 999)])])
                example_file) as E1.
  pose proof (@analysisData_value example_builtins (Json.Obj []) example_file)
    as E2.
  cbv beta iota zeta in E1, E2.
  eexists. split; [exact E1|].
  destruct (@counts_come_from_the_file example_builtins _ _ _ _ _ E1 E2)
    as (R & C & _).
  split; [exact R | exact C].
Defined.

(** The two-decimal rounding of a size in kilobytes, in integers. *)
Lemma nearest_div1024 n :
  Z.of_N (Fmt.nearest 2 (Fmt.div1024 n)) = ((200 * Z.of_nat n + 1024) / 2048)%Z.
Proof.
  unfold Fmt.nearest, Fmt.div1024, Qfloor, Qplus, Qmult, inject_Z.
  cbn [Qnum Qden].
  change (10 ^ Z.of_nat 2)%Z with 100%Z.
  change (Z.pos (1024 * 1 * 2)) with 2048%Z.
  change (Z.pos (1024 * 1)) with 1024%Z.
  rewrite Z2N.id.
  - f_equal. lia.
  - apply Z.div_pos; lia.
Qed.

(** *** The text that [toFixed(2)] prints

    The digits of a number read back as that number. *)
Lemma decimal_from_uint d acc :
  decimal_from acc (JS.lit (NilEmpty.string_of_uint d)) = Some (uval acc d).
Proof.
  revert acc. induction d; intros acc; [done|..];
    cbn [NilEmpty.string_of_uint uval];
    change (JS.lit (String.String ?c ?s)) with (Ascii.N_of_ascii c :: JS.lit s);
    cbn [decimal_from Ascii.N_of_ascii]; cbn -[N.mul N.add decimal_from uval];
    rewrite ?N.add_0_r; apply IHd.
Qed.

Lemma uval_of_lu d acc :
  uval acc d = (DecimalPos.Unsigned.of_lu (Decimal.rev d)
                + acc * 10 ^ DecimalPos.Unsigned.usize d)%N.
Proof.
  revert acc. induction d; intros acc; cbn [uval DecimalPos.Unsigned.usize];
    [change (Decimal.rev Decimal.Nil) with Decimal.Nil;
     cbn [DecimalPos.Unsigned.of_lu]; rewrite N.pow_0_r; lia|..];
    rewrite IHd; unfold Decimal.rev; cbn [Decimal.revapp];
    rewrite (DecimalPos.Unsigned.of_lu_revapp d (_ Decimal.Nil));
    cbn [DecimalPos.Unsigned.of_lu DecimalPos.Unsigned.hd DecimalPos.Unsigned.tl]; rewrite N.pow_succ_r'; unfold Decimal.rev; ring.
Qed.

Lemma uval_of_uint d : uval 0 d = N.of_uint d.
Proof.
  rewrite uval_of_lu. unfold N.of_uint.
  rewrite DecimalPos.Unsigned.of_uint_alt. lia.
Qed.

Lemma digits_value n : decimal_from 0 (Fmt.digits n) = Some n.
Proof.
  unfold Fmt.digits, Fmt.of_uint, NilZero.string_of_uint.
  assert (N.to_uint n ≠ Decimal.Nil) as Hne.
  { destruct n; [done|]. apply DecimalPos.Unsigned.to_uint_nonnil. }
  destruct (N.to_uint n) eqn:E; [done|..];
    rewrite <- E, decimal_from_uint, uval_of_uint;
    by rewrite DecimalN.Unsigned.of_to.
Qed.

(** The digits of a number start with a zero only when the number is 0. *)
Lemma to_uint_normal n : Decimal.unorm (N.to_uint n) = N.to_uint n.
Proof.
  rewrite <- DecimalN.Unsigned.to_of. by rewrite DecimalN.Unsigned.of_to.
Qed.

Lemma digits_canonical n : no_leading_zero (Fmt.digits n).
Proof.
  unfold Fmt.digits, Fmt.of_uint, NilZero.string_of_uint.
  pose proof (to_uint_normal n) as Hn. unfold Decimal.unorm in Hn.
  pose proof (DecimalFacts.nzhead_nonzero (N.to_uint n)) as Hz.
  destruct (Decimal.nzhead (N.to_uint n)) eqn:E.
  - rewrite <- Hn. by left.
  - by destruct (Hz u).
  - rewrite <- Hn. right. eexists _, _. split; [reflexivity|done].
  - rewrite <- Hn. right. eexists _, _. split; [reflexivity|done].
  - rewrite <- Hn. right. eexists _, _. split; [reflexivity|done].
  - rewrite <- Hn. right. eexists _, _. split; [reflexivity|done].
  - rewrite <- Hn. right. eexists _, _. split; [reflexivity|done].
  - rewrite <- Hn. right. eexists _, _. split; [reflexivity|done].
  - rewrite <- Hn. right. eexists _, _. split; [reflexivity|done].
  - rewrite <- Hn. right. eexists _, _. split; [reflexivity|done].
  - rewrite <- Hn. right. eexists _, _. split; [reflexivity|done].
Qed.

Lemma decimal_from_zeros k s :
  decimal_from 0 (replicate k 48%N ++ s) = decimal_from 0 s.
Proof. induction k as [|k IH]; [done|]. exact IH. Qed.

(** Two decimals of [n] hundredths: a whole part with no padding, the
    point, and two digits; the digits together write [n]. *)
Lemma render_two n :
  ∃ whole frac,
    Fmt.render 2 n = whole ++ [46%N] ++ frac ∧
    no_leading_zero whole ∧ length frac = 2 ∧
    decimal_value (whole ++ frac) = Some n.
Proof.
  unfold Fmt.render. cbv zeta.
  destruct (decide (2 = 0)) as [|_]; [done|].
  set (m := Fmt.digits n).
  set (padded := replicate (3 - length m) 48%N ++ m).
  assert (3 ≤ length padded) as Hlen.
  { unfold padded. rewrite length_app, length_replicate. lia. }
  exists (take (length padded - 2) padded), (drop (length padded - 2) padded).
  split; [done|]. split; [|split].
  - destruct (decide (3 ≤ length m)) as [Hm|Hm].
    + assert (padded = m) as ->.
      { unfold padded. by replace (3 - length m) with 0 by lia. }
      destruct (digits_canonical n) as [Hd|(c & rest & Hd & Hc)];
        fold m in Hd; rewrite Hd in Hm |- *; cbn in Hm; [lia|].
      right. exists c, (take (length rest - 2) rest). split; [|done].
      cbn [length]. by replace (S (length rest) - 2) with (S (length rest - 2)) by lia.
    + left. assert (length padded = 3) as ->.
      { unfold padded. rewrite length_app, length_replicate. lia. }
      unfold padded. destruct (3 - length m) as [|k] eqn:E; [lia|]. done.
  - rewrite length_drop. lia.
  - rewrite take_drop. unfold decimal_value.
    destruct padded as [|c rest] eqn:E; [cbn in Hlen; lia|].
    rewrite <- E. unfold padded.
    rewrite decimal_from_zeros. apply digits_value.
Qed.

(** Only one text has this shape and writes [n]. *)
Lemma decimal_from_cons acc c s v :
  decimal_from acc (c :: s) = Some v →
  (48 ≤ c ≤ 57)%N ∧ decimal_from (10 * acc + (c - 48)) s = Some v.
Proof.
  cbn [decimal_from].
  destruct (48 <=? c)%N eqn:E1; [|done]. destruct (c <=? 57)%N eqn:E2; [|done].
  cbn [andb]. intros Hv. apply N.leb_le in E1, E2. done.
Qed.

Lemma decimal_from_bounds s acc v :
  decimal_from acc s = Some v →
  (acc * 10 ^ N.of_nat (length s) ≤ v < (acc + 1) * 10 ^ N.of_nat (length s))%N.
Proof.
  revert acc. induction s as [|c s IH]; intros acc Hv.
  - injection Hv as <-. cbn [length]. change (10 ^ N.of_nat 0)%N with 1%N. lia.
  - apply decimal_from_cons in Hv as [Hc Hv]. apply IH in Hv.
    cbn [length]. rewrite Nat2N.inj_succ, N.pow_succ_r'.
    revert Hv. generalize (10 ^ N.of_nat (length s))%N. intros p Hv. nia.
Qed.

Lemma decimal_from_inj s s' acc acc' v :
  length s = length s' →
  decimal_from acc s = Some v → decimal_from acc' s' = Some v →
  acc = acc' ∧ s = s'.
Proof.
  revert s' acc acc'. induction s as [|c s IH]; intros [|c' s'] acc acc' Hl; try done.
  - cbn. by intros [= ->] [= ->].
  - intros [Hc Hv]%decimal_from_cons [Hc' Hv']%decimal_from_cons.
    injection Hl as Hl. destruct (IH _ _ _ Hl Hv Hv') as [Hacc ->].
    assert (c = c') as -> by lia. split; [lia|done].
Qed.

Lemma canonical_length w f n :
  no_leading_zero w → length f = 2 → decimal_value (w ++ f) = Some n →
  (w = [48%N] ∧ (n < 100)%N) ∨
  ((10 ^ N.of_nat (length w + 1) ≤ n < 10 ^ N.of_nat (length w + 2))%N).
Proof.
  intros Hw Hf Hn.
  destruct Hw as [->|(c & rest & -> & Hc)].
  - left. split; [done|]. cbn in Hn.
    apply decimal_from_bounds in Hn. rewrite Hf in Hn.
    change (10 ^ N.of_nat 2)%N with 100%N in Hn. lia.
  - right. cbn [app decimal_value] in Hn.
    apply decimal_from_cons in Hn as [Hc' Hn].
    apply decimal_from_bounds in Hn. rewrite length_app, Hf in Hn.
    cbn [length].
    replace (S (length rest) + 1) with (length rest + 2) by lia.
    replace (S (length rest) + 2) with (S (length rest + 2)) by lia.
    rewrite Nat2N.inj_succ, N.pow_succ_r'. 
    revert Hn. generalize (10 ^ N.of_nat (length rest + 2))%N. intros p Hn. nia.
Qed.

Lemma two_decimals_unique w f w' f' n :
  no_leading_zero w → length f = 2 → decimal_value (w ++ f) = Some n →
  no_leading_zero w' → length f' = 2 → decimal_value (w' ++ f') = Some n →
  w = w' ∧ f = f'.
Proof.
  intros Hw Hf Hn Hw' Hf' Hn'.
  assert (1 ≤ length w) as H1
    by (destruct Hw as [->|(? & ? & -> & _)]; cbn; lia).
  assert (1 ≤ length w') as H1'
    by (destruct Hw' as [->|(? & ? & -> & _)]; cbn; lia).
  assert (length w = length w') as Hl.
  { destruct (canonical_length _ _ _ Hw Hf Hn) as [[-> Hs]|Hb],
      (canonical_length _ _ _ Hw' Hf' Hn') as [[-> Hs']|Hb']; [done|..].
    - assert (10 ^ 2 ≤ 10 ^ N.of_nat (length w' + 1))%N
        by (apply N.pow_le_mono_r; lia).
      change (10 ^ 2)%N with 100%N in *. lia.
    - assert (10 ^ 2 ≤ 10 ^ N.of_nat (length w + 1))%N
        by (apply N.pow_le_mono_r; lia).
      change (10 ^ 2)%N with 100%N in *. lia.
    - destruct (decide (length w = length w')) as [|Hne]; [done|exfalso].
      destruct (decide (length w < length w')).
      + assert (10 ^ N.of_nat (length w + 2) ≤ 10 ^ N.of_nat (length w' + 1))%N
          by (apply N.pow_le_mono_r; lia). lia.
      + assert (10 ^ N.of_nat (length w' + 2) ≤ 10 ^ N.of_nat (length w + 1))%N
          by (apply N.pow_le_mono_r; lia). lia. }
  assert (w ++ f = w' ++ f') as Heq.
  { assert (w ++ f ≠ []) as Hne
      by (destruct Hw as [->|(? & ? & -> & _)]; done).
    assert (w' ++ f' ≠ []) as Hne'
      by (destruct Hw' as [->|(? & ? & -> & _)]; done).
    unfold decimal_value in Hn, Hn'.
    destruct (w ++ f) eqn:E; [done|]. destruct (w' ++ f') eqn:E'; [done|].
    rewrite <- E in Hn. rewrite <- E' in Hn'.
    rewrite <- E, <- E'.
    eapply decimal_from_inj; [|exact Hn|exact Hn'].
    rewrite !length_app. lia. }
  by apply app_inj_1 in Heq.
Qed.

(** C4: the empty payload object gives the score 0.85, a [dataQuality] of
    an empty [missingValues] mapping, 0 [duplicateRows] and no
    [dataTypeIssues], empty [statistics], [correlations] and [insights],
    [patterns] of no [trends], no [outliers] and empty [distributions], and
    a [memorySize] made from the size of the file alone, whatever the size:
    with [h] the number of hundredths of a kilobyte nearest to size / 1024
    (the larger one on a tie), the text is a whole part without padding
    zeros, a point, two digits and the unit [ KB], and the digits written
    before and after the point together write [h].  So 2048 characters
    print as [2.00 KB], 1500 as [1.46 KB], 128 (a tie) as [0.13 KB], 5 as
    [0.00 KB], and 102400 as [100.00 KB]. *)
Theorem empty_payload_defaults `{Json.Builtins} :
  (∀ fd, ∃ h whole frac,
     (2048 * Z.of_N h ≤ 200 * Z.of_nat (FileData.size fd) + 1024
        < 2048 * (Z.of_N h + 1))%Z ∧
     no_leading_zero whole ∧ length frac = 2 ∧
     decimal_value (whole ++ frac) = Some h ∧
     Page.analysisData (Json.Obj []) fd =
     inr {|
       AnalysisResult.summary := {|
         AnalysisResult.totalRows := FileData.rows fd;
         AnalysisResult.totalColumns := FileData.columns fd;
         AnalysisResult.completenessScore := 0.85%float;
         AnalysisResult.memorySize :=
           whole ++ JS.lit "." ++ frac ++ JS.lit " KB";
       |};
       AnalysisResult.dataQuality :=
         Json.Obj [(JS.lit "missingValues", Json.Obj []);
                   (JS.lit "duplicateRows", Json.Num 0);
                   (JS.lit "dataTypeIssues", Json.Arr [])];
       AnalysisResult.statistics := Json.Obj [];
       AnalysisResult.correlations := Json.Arr [];
       AnalysisResult.patterns :=
         Json.Obj [(JS.lit "trends", Json.Arr []);
                   (JS.lit "distributions", Json.Obj []);
                   (JS.lit "outliers", Json.Arr [])];
       AnalysisResult.insights := Json.Arr [];
     |}) ∧
  Forall (λ '(size, text),
            ∀ name rows columns headers preview,
              ∃ r, Page.analysisData (Json.Obj [])
                     (FileData.mk name size rows columns headers preview)
                   = inr r ∧
                   AnalysisResult.memorySize (AnalysisResult.summary r)
                   = JS.lit text)
    [(2048, "2.00 KB"); (1500, "1.46 KB"); (128, "0.13 KB");
     (5, "0.00 KB"); (6, "0.01 KB"); (0, "0.00 KB");
     (100 * 1024, "100.00 KB")].
Proof.
  split.
  - intros fd.
    destruct (render_two (Fmt.nearest 2 (Fmt.div1024 (FileData.size fd))))
      as (whole & frac & Hr & Hw & Hf & Hv).
    exists (Fmt.nearest 2 (Fmt.div1024 (FileData.size fd))), whole, frac.
    split.
    { rewrite nearest_div1024.
      pose proof (Z.mul_div_le (200 * Z.of_nat (FileData.size fd) + 1024) 2048).
      pose proof (Z.mul_succ_div_gt
                    (200 * Z.of_nat (FileData.size fd) + 1024) 2048).
      lia. }
    do 3 (split; [done|]).
    rewrite analysisData_value. cbv beta iota zeta.
    unfold Fmt.toFixed. rewrite Hr.
    replace ((whole ++ [46%N] ++ frac) ++ JS.lit " KB")
      with (whole ++ JS.lit "." ++ frac ++ JS.lit " KB")
      by (by rewrite <- !app_assoc).
    reflexivity.
  - repeat constructor; intros name rows columns headers preview;
      rewrite analysisData_value; eexists; (split; [reflexivity|]);
      by vm_compute.
Qed.

(** ** [analyzeData] *)

Section Analysis.
Context `{Json.Builtins}.

Lemma get_inr v p o :
  Json.get v p = inr o → o = Json.get_opt (Some v) p.
Proof.
  destruct v; cbv [Json.get Json.get_opt JS.throw mret JS.result_ret];
    congruence.
Qed.

(** The [try] block reaches [setAnalysis] only with the flag set, a payload
    present and decoded, and the object literal built. *)
Lemma attempt_commits fd reply r :
  Page.attempt fd reply = inr (Some r) →
  ∃ parsed, full_success reply parsed ∧ Page.analysisData parsed fd = inr r.
Proof.
  unfold Page.attempt. destruct reply as [| |data]; [done|done|]. run.
  destruct (Json.get data Json.success) as [e|ok] eqn:Eok; [done|]. run.
  apply get_inr in Eok.
  destruct (Json.truthy ok) eqn:Tok; [|done].
  destruct (Json.get data Json.response) as [e|resp] eqn:Er; [done|]. run.
  apply get_inr in Er.
  destruct resp as [resp|]; [|done].
  destruct (Json.truthy (Some resp)) eqn:Tr; [|done].
  assert (∀ parsed, decode resp = Some parsed → full_success (Body data) parsed)
    as Hfull.
  { intros parsed Hd. exists data, resp. subst ok.
    rewrite Tok, <- Er, Tr. done. }
  assert (∀ parsed,
            decode resp = Some parsed →
            (analysisData ← Page.analysisData parsed fd; mret (Some analysisData))
              = inr (Some r) →
            ∃ parsed, full_success (Body data) parsed ∧
                      Page.analysisData parsed fd = inr r) as Hend.
  { intros parsed Hd. destruct (Page.analysisData parsed fd) as [e|r'] eqn:Ea;
      run; [done|]. intros [= <-]. exists parsed. split; [by apply Hfull|done]. }
  destruct resp as [|b|x|s|items|fields]; try discriminate Tr; run;
    try (by apply Hend).
  destruct (Json.JSON_parse s) as [v|] eqn:Ed; run; [|done].
  by apply Hend.
Qed.

Lemma analyzeData_reply_analysis fd reply st :
  analysis (Page.analyzeData_reply fd reply st) =
  match Page.attempt fd reply with
  | inr (Some r) => Some r
  | _ => analysis st
  end.
Proof.
  unfold Page.analyzeData_reply.
  by destruct (Page.attempt fd reply) as [e|[r|]].
Qed.

Lemma analyzeData_analysis reply st :
  analysis (Page.analyzeData reply st) =
  match fileData st with
  | None => analysis st
  | Some fd =>
      match Page.attempt fd reply with
      | inr (Some r) => Some r
      | _ => analysis st
      end
  end.
Proof.
  unfold Page.analyzeData, Page.analyzeData_request.
  destruct (fileData st) as [fd|]; [|done].
  by rewrite analyzeData_reply_analysis.
Qed.

(** A failing reply cannot be one the [try] block commits. *)
Lemma failure_not_committed fd reply r :
  network_failure reply ∨ non_success reply ∨ decode_failure reply →
  Page.attempt fd reply ≠ inr (Some r).
Proof.
  intros Hfail Ea. apply attempt_commits in Ea as (parsed & Hfull & _).
  destruct Hfull as (data & resp & -> & Hok & Hresp & Hpresent & Hdec).
  destruct Hfail as [[?|?] | [(data' & [= <-] & Hno)
                             | (data' & s & [= <-] & Hs & Hnone)]];
    [done|done| |].
  - by rewrite Hno in Hok.
  - rewrite Hresp in Hs. injection Hs as ->. cbn in Hdec. congruence.
Qed.

End Analysis.

(** C8: an analysis that fails, by a rejected request or body, by an answer
    without a truthy [success] flag, or by a [response] string that does not
    decode, leaves the committed result as it was, also when the page has
    moved on to a later state while the request was under way; and the
    committed result changes only when the whole operation succeeds: flag
    set, payload present and decoded, and the result built from it. *)
Theorem failed_analysis_keeps_result `{Json.Builtins} reply st :
  (network_failure reply ∨ non_success reply ∨ decode_failure reply →
   analysis (Page.analyzeData reply st) = analysis st ∧
   ∀ fd later, analysis (Page.analyzeData_reply fd reply later) = analysis later) ∧
  (analysis (Page.analyzeData reply st) ≠ analysis st →
   ∃ fd parsed r,
     fileData st = Some fd ∧ full_success reply parsed ∧
     Page.analysisData parsed fd = inr r ∧
     analysis (Page.analyzeData reply st) = Some r).
Proof.
  rewrite analyzeData_analysis. split.
  - intros Hfail. split.
    + destruct (fileData st) as [fd|]; [|done].
      destruct (Page.attempt fd reply) as [e|[r|]] eqn:Ea; [done| |done].
      by destruct (failure_not_committed fd reply r Hfail).
    + intros fd later. rewrite analyzeData_reply_analysis.
      destruct (Page.attempt fd reply) as [e|[r|]] eqn:Ea; [done| |done].
      by destruct (failure_not_committed fd reply r Hfail).
  - intros Hchanged. destruct (fileData st) as [fd|]; [|done].
    destruct (Page.attempt fd reply) as [e|[r|]] eqn:Ea; [done| |done].
    apply attempt_commits in Ea as (parsed & Hfull & Hr).
    by exists fd, parsed, r.
Qed.

Lemma failed_analysis_keeps_result_witness :
  let before := mk_state (Some example_file) None false None (JS.lit "summary") in
  let malformed :=
    Body (Json.Obj [(JS.lit "success", Json.Bool true);
                    (JS.lit "response", Json.Str (JS.lit "{oops"))]) in
  let well_formed :=
    Body (Json.Obj [(JS.lit "success", Json.Bool true);
                    (JS.lit "response", Json.Str (JS.lit "{}"))]) in
  ∃ r, analysis (@Page.analyzeData example_builtins well_formed before) = Some r ∧
       analysis (@Page.analyzeData example_builtins malformed
                   (@Page.analyzeData example_builtins well_formed before))
         = Some r.
Proof.
  cbv zeta.
  destruct (proj2 (@failed_analysis_keeps_result example_builtins
                     (Body (Json.Obj [(JS.lit "success", Json.Bool true);
                                      (JS.lit "response",
                                       Json.Str (JS.lit "{}"))]))
                     (mk_state (Some example_file) None false None
                        (JS.lit "summary"))))
    as (fd & parsed & r & _ & _ & _ & Hr).
  - vm_compute. discriminate.
  - exists r. split; [exact Hr|]. rewrite <- Hr.
    apply (proj1 (@failed_analysis_keeps_result example_builtins _ _)).
    right. right. eexists _, (JS.lit "{oops").
    split; [reflexivity|]. split; vm_compute; reflexivity.
Defined.

(** C10: the page and its restyled variant compute the same file record
    from every text and name, the same analysis result from every payload
    and file, and the same next state in the upload and analysis handlers. *)
Theorem variants_agree :
  (∀ text fileName, Page.parseCSV text fileName = PageAlt.parseCSV text fileName) ∧
  (∀ (B : Json.Builtins) payload fd,
     Page.analysisData payload fd = PageAlt.analysisData payload fd) ∧
  (∀ file st, Page.handleFileUpload file st = PageAlt.handleFileUpload file st) ∧
  (∀ (B : Json.Builtins) reply st,
     Page.analyzeData reply st = PageAlt.analyzeData reply st) ∧
  Page.SAMPLE_CSV = PageAlt.SAMPLE_CSV.
Proof. repeat split. Qed.

(** ** The handlers of the page *)

Lemma startsWith_spec p s : JS.startsWith p s = true ↔ ∃ rest, s = p ++ rest.
Proof.
  revert s. induction p as [|a p IH]; intros s; simpl.
  - split; [intros _; by exists s | done].
  - destruct s as [|b s]; [split; [done | by intros [? ?]]|].
    rewrite andb_true_iff, N.eqb_eq, IH. split.
    + intros [-> [rest ->]]. by exists rest.
    + intros [rest [= -> ->]]. split; [done | by exists rest].
Qed.

Lemma endsWith_spec p s : JS.endsWith p s = true ↔ ∃ stem, s = stem ++ p.
Proof.
  unfold JS.endsWith. rewrite startsWith_spec. split.
  - intros [rest E]. exists (reverse rest).
    apply (inj reverse). by rewrite reverse_app, reverse_involutive.
  - intros [stem ->]. exists (reverse stem). by rewrite reverse_app.
Qed.

Lemma onload_commits text fileName st :
  ∃ fd, Page.parseCSV text fileName = inr fd ∧
        Page.onload text fileName st = setAnalysis None (setFileData (Some fd) st).
Proof.
  destruct (parseCSV_returns text fileName) as (? & ? & _ & E).
  eexists. split; [exact E|]. unfold Page.onload. by rewrite E.
Qed.

(** X7: a dropped file is read exactly when its type is [text/csv] or its
    name ends in [.csv]; then the parsed file replaces the dataset, the
    analysis is discarded and the error banner stays as it was. Any other
    drop, and a drop without a file, sets the upload error and leaves the
    dataset and the analysis alone. *)
Theorem drop_reads_csv_files_only file st :
  let is_csv :=
    ∃ f, file = Some f ∧
         (File.type f = JS.lit "text/csv" ∨
          ∃ stem, File.name f = stem ++ JS.lit ".csv") in
  (is_csv →
   ∃ f fd, file = Some f ∧
           Page.parseCSV (File.text f) (File.name f) = inr fd ∧
           Page.handleDragDrop file st =
             setAnalysis None (setFileData (Some fd) st) ∧
           error (Page.handleDragDrop file st) = error st) ∧
  (¬ is_csv →
   Page.handleDragDrop file st = setError (Some upload_type_message) st ∧
   fileData (Page.handleDragDrop file st) = fileData st ∧
   analysis (Page.handleDragDrop file st) = analysis st).
Proof.
  cbv zeta. unfold Page.handleDragDrop. split.
  - intros (f & -> & Hcsv).
    assert (bool_decide (File.type f = JS.lit "text/csv")
            || JS.endsWith (JS.lit ".csv") (File.name f) = true) as ->.
    { apply orb_true_iff. destruct Hcsv as [Ht|Hn].
      - left. by apply bool_decide_eq_true.
      - right. by apply endsWith_spec. }
    destruct (onload_commits (File.text f) (File.name f) st) as (fd & E & ->).
    by exists f, fd.
  - intros Hno. destruct file as [f|]; [|done].
    destruct (bool_decide (File.type f = JS.lit "text/csv")
              || JS.endsWith (JS.lit ".csv") (File.name f)) eqn:Hc; [|done].
    destruct Hno. exists f. split; [done|].
    apply orb_true_iff in Hc as [Ht|Hn].
    + left. by apply bool_decide_eq_true in Ht.
    + right. by apply endsWith_spec.
Qed.

Lemma drop_reads_csv_files_only_witness :
  let st := mk_state None None false (Some upload_type_message) (JS.lit "summary") in
  let file := Some (File.mk (JS.lit "people.csv") [] (JS.lit "name,age")) in
  ∃ fd, fileData (Page.handleDragDrop file st) = Some fd ∧
        error (Page.handleDragDrop file st) = Some upload_type_message ∧
        fileData (Page.handleDragDrop
                    (Some (File.mk (JS.lit "people.txt") (JS.lit "text/plain") []))
                    st) = None.
Proof.
  cbv zeta.
  destruct (proj1 (drop_reads_csv_files_only
                     (Some (File.mk (JS.lit "people.csv") [] (JS.lit "name,age")))
                     (mk_state None None false (Some upload_type_message)
                        (JS.lit "summary"))))
    as (f & fd & _ & _ & E & Herr).
  - eexists. split; [reflexivity|]. right. by exists (JS.lit "people").
  - exists fd. split; [by rewrite E|]. split; [exact Herr|].
    refine (proj1 (proj2 (proj2 (drop_reads_csv_files_only _ _) _))).
    intros (f' & [= <-] & [Ht | [stem Hs]]).
    + vm_compute in Ht. discriminate.
    + apply (f_equal (JS.endsWith (JS.lit ".csv"))) in Hs.
      rewrite (proj2 (endsWith_spec _ (stem ++ _))) in Hs by by exists stem.
      vm_compute in Hs. discriminate.
Defined.

(** X8: a file chosen in the picker replaces the dataset wholesale: the
    state after it does not depend on a file that was chosen, dropped or
    loaded as a sample just before; the analysis and the error are reset. *)
Theorem chosen_file_replaces_dataset fileName text st :
  (∀ before,
     Page.handleFileUpload (Some (fileName, text))
       (Page.handleFileUpload before st)
     = Page.handleFileUpload (Some (fileName, text)) st) ∧
  (∀ dropped,
     Page.handleFileUpload (Some (fileName, text))
       (Page.handleDragDrop dropped st)
     = Page.handleFileUpload (Some (fileName, text)) st) ∧
  Page.handleFileUpload (Some (fileName, text)) (Page.loadSampleData st)
    = Page.handleFileUpload (Some (fileName, text)) st ∧
  analysis (Page.handleFileUpload (Some (fileName, text)) st) = None ∧
  error (Page.handleFileUpload (Some (fileName, text)) st) = None.
Proof.
  assert (∀ st', loading st' = loading st → activeTab st' = activeTab st →
                 Page.handleFileUpload (Some (fileName, text)) st'
                 = Page.handleFileUpload (Some (fileName, text)) st) as Hsame.
  { intros st' Hl Ht. unfold Page.handleFileUpload.
    destruct (onload_commits text fileName (setError None st')) as (fd & E & ->).
    destruct (onload_commits text fileName (setError None st)) as (fd' & E' & ->).
    rewrite E in E'. injection E' as <-.
    unfold setAnalysis, setFileData, setError. cbn. by rewrite Hl, Ht. }
  split; [|split; [|split; [|split]]].
  - intros [[n t]|]; [|done]. apply Hsame.
    all: unfold Page.handleFileUpload;
      by destruct (onload_commits t n (setError None st)) as (fd & _ & ->).
  - intros dropped. apply Hsame.
    all: unfold Page.handleDragDrop; destruct dropped as [f|]; [|done];
      destruct (_ || _); [|done];
      by destruct (onload_commits (File.text f) (File.name f) st)
        as (fd & _ & ->).
  - apply Hsame.
    all: unfold Page.loadSampleData; by destruct (Page.parseCSV _ _).
  - unfold Page.handleFileUpload.
    by destruct (onload_commits text fileName (setError None st)) as (fd & _ & ->).
  - unfold Page.handleFileUpload.
    by destruct (onload_commits text fileName (setError None st)) as (fd & _ & ->).
Qed.

(** [resetAnalysis] gives back the state of the first render, except
    that it leaves the loading flag as it is; after it an analysis does
    nothing and there is no report to download. *)
Lemma reset_returns_to_initial `{Json.Builtins} st :
  Page.resetAnalysis st = mk_state None None (loading st) None (JS.lit "summary") ∧
  (loading st = false → Page.resetAnalysis st = initial) ∧
  (∀ reply, Page.analyzeData reply (Page.resetAnalysis st) = Page.resetAnalysis st) ∧
  (∀ now, Page.downloadReport now (Page.resetAnalysis st) = None) ∧
  Page.dashboard_file (Page.resetAnalysis st) = None.
Proof.
  split; [done|]. split; [|done].
  intros Hl. unfold Page.resetAnalysis, initial, setActiveTab, setError,
    setAnalysis, setFileData. cbn. by rewrite Hl.
Qed.

Lemma reset_returns_to_initial_witness :
  Page.resetAnalysis
    (mk_state (Some example_file) None false (Some analyze_failed_message)
       (JS.lit "quality")) = initial.
Proof.
  apply (proj1 (proj2 (@reset_returns_to_initial example_builtins _))).
  reflexivity.
Defined.

Section Reachable.
Context `{Json.Builtins}.

Lemma analyzeData_keeps_file reply st :
  fileData (Page.analyzeData reply st) = fileData st ∧
  loading (Page.analyzeData reply st)
    = match fileData st with Some _ => false | None => loading st end.
Proof.
  unfold Page.analyzeData, Page.analyzeData_request, Page.analyzeData_reply.
  destruct (fileData st) as [fd|] eqn:Ef; [|by rewrite Ef].
  by destruct (Page.attempt fd reply) as [e|[r|]].
Qed.

Lemma onload_consistent text fileName st :
  loading st = false → consistent (Page.onload text fileName st).
Proof.
  intros Hl. destruct (onload_commits text fileName st) as (fd & E & ->).
  split; [done|]. split; [|done].
  intros fd' [= <-]. eauto.
Qed.

Lemma handle_consistent st e : consistent st → consistent (handle st e).
Proof.
  intros (Hl & Hf & Ha). destruct e as [file|file| | |tab|reply]; cbn [handle].
  - destruct file as [[n t]|]; [|done]. by apply onload_consistent.
  - unfold Page.handleDragDrop. destruct file as [f|]; [|done].
    destruct (_ || _); [by apply onload_consistent | done].
  - unfold Page.loadSampleData.
    destruct (Page.parseCSV _ _) as [e|fd] eqn:E; [done|].
    split; [done|]. split; [|done]. intros fd' [= <-]. eauto.
  - done.
  - done.
  - destruct (analyzeData_keeps_file reply st) as [Ef El].
    split; [|split].
    + rewrite El. by destruct (fileData st).
    + rewrite Ef. exact Hf.
    + intros a. rewrite Ef, analyzeData_analysis.
      destruct (fileData st) as [fd|]; [|exact (Ha a)].
      destruct (Page.attempt fd reply) as [e|[r|]] eqn:Ea;
        [exact (Ha a) | | exact (Ha a)].
      intros [= <-]. apply attempt_commits in Ea as (parsed & _ & Hr). eauto.
Qed.

Lemma after_consistent events : consistent (after events).
Proof.
  unfold after. assert (consistent initial) as Hi by done.
  revert Hi. generalize initial.
  induction events as [|e events IH]; intros st Hst; [done|].
  cbn. by apply IH, handle_consistent.
Qed.

End Reachable.

(** X9: whatever files are chosen or dropped and whatever the agent
    answers, as long as each file is read and each reply arrives before the
    next event: no
    request is left under way, a dataset in the state keeps min(rows, 10)
    rows in its preview, and an analysis in the state was built for the
    dataset that is in the state, so its row and column counts are those of
    that dataset and the dashboard finds the file it reads. *)
Theorem reachable_states_are_consistent `{Json.Builtins} events :
  let st := after events in
  loading st = false ∧
  (∀ fd, fileData st = Some fd →
         length (FileData.preview fd) = min (FileData.rows fd) 10) ∧
  (∀ a, analysis st = Some a →
        ∃ fd, fileData st = Some fd ∧
              AnalysisResult.totalRows (AnalysisResult.summary a)
                = FileData.rows fd ∧
              AnalysisResult.totalColumns (AnalysisResult.summary a)
                = FileData.columns fd ∧
              Page.dashboard_file st = Some (inr fd)).
Proof.
  cbv zeta. destruct (after_consistent events) as (Hl & Hf & Ha).
  split; [exact Hl|]. split.
  - intros fd Hfd. destruct (Hf fd Hfd) as (text & fileName & E).
    by apply parseCSV_rows in E as [_ P].
  - intros a Hsome. destruct (Ha a Hsome) as (fd & parsed & Hfd & Hr).
    exists fd. apply analysisData_summary in Hr as (R & C & _).
    unfold Page.dashboard_file. by rewrite Hsome, Hfd.
Qed.

Lemma reachable_states_are_consistent_witness :
  let events :=
    [SampleLoaded;
     Analyzed (Body (Json.Obj [(JS.lit "success", Json.Bool true);
                               (JS.lit "response", Json.Str (JS.lit "{}"))]));
     TabSelected (JS.lit "quality")] in
  ∃ a fd, analysis (@after example_builtins events) = Some a ∧
          fileData (@after example_builtins events) = Some fd ∧
          AnalysisResult.totalRows (AnalysisResult.summary a) = FileData.rows fd.
Proof.
  cbv zeta.
  destruct (@after example_builtins
              [SampleLoaded;
               Analyzed (Body (Json.Obj [(JS.lit "success", Json.Bool true);
                                         (JS.lit "response",
                                          Json.Str (JS.lit "{}"))]));
               TabSelected (JS.lit "quality")]) as [f a l e t] eqn:E.
  destruct a as [a|]; [|vm_compute in E; discriminate].
  pose proof (proj2 (proj2 (@reachable_states_are_consistent example_builtins
    [SampleLoaded;
     Analyzed (Body (Json.Obj [(JS.lit "success", Json.Bool true);
                               (JS.lit "response", Json.Str (JS.lit "{}"))]));
     TabSelected (JS.lit "quality")])) a) as Hinv.
  rewrite E in Hinv. destruct (Hinv eq_refl) as (fd & Hfd & R & _).
  by exists a, fd.
Defined.

(** X10: a reply is committed in whatever state it finds. When the page was
    cleared while the request was under way, the analysis is committed
    without a dataset and the dashboard throws on its first read of the
    file; when another file was chosen meanwhile, the analysis of the old
    file is committed next to the new one, with the old counts. *)
Theorem late_reply_is_still_committed `{Json.Builtins} fd reply r st :
  Page.attempt fd reply = inr (Some r) →
  (let st' := Page.analyzeData_reply fd reply (Page.resetAnalysis st) in
   analysis st' = Some r ∧ fileData st' = None ∧
   Page.dashboard_file st' = Some (inl JS.TypeError)) ∧
  (∀ fileName text,
     let st' := Page.analyzeData_reply fd reply
                  (Page.handleFileUpload (Some (fileName, text)) st) in
     ∃ fd', Page.parseCSV text fileName = inr fd' ∧
            fileData st' = Some fd' ∧ analysis st' = Some r ∧
            AnalysisResult.totalRows (AnalysisResult.summary r)
              = FileData.rows fd).
Proof.
  intros Ea. split.
  - cbv zeta. unfold Page.dashboard_file, Page.analyzeData_reply.
    by rewrite Ea.
  - intros fileName text. cbv zeta.
    unfold Page.analyzeData_reply, Page.handleFileUpload. rewrite Ea.
    destruct (onload_commits text fileName (setError None st)) as (fd' & E & ->).
    exists fd'. split; [exact E|]. split; [done|]. split; [done|].
    apply attempt_commits in Ea as (parsed & _ & Hr).
    by apply analysisData_summary in Hr as (R & _).
Qed.

Lemma late_reply_is_still_committed_witness :
  let reply :=
    Body (Json.Obj [(JS.lit "success", Json.Bool true);
                    (JS.lit "response", Json.Obj [])]) in
  let st := mk_state (Some example_file) None true None (JS.lit "summary") in
  Page.dashboard_file
    (@Page.analyzeData_reply example_builtins example_file reply
       (Page.resetAnalysis st)) = Some (inl JS.TypeError).
Proof.
  cbv zeta.
  destruct (@Page.attempt example_builtins example_file
              (Body (Json.Obj [(JS.lit "success", Json.Bool true);
                               (JS.lit "response", Json.Obj [])])))
    as [e|[r|]] eqn:Ea; [vm_compute in Ea; discriminate| |
                         vm_compute in Ea; discriminate].
  exact (proj2 (proj2 (proj1 (@late_reply_is_still_committed example_builtins
                                _ _ r _ Ea)))).
Defined.

Section Outcomes.
Context `{Json.Builtins}.

(** The [try] block, case by case. *)
Lemma attempt_value fd reply :
  Page.attempt fd reply =
  match reply with
  | FetchRejected => inl JS.TypeError
  | BodyRejected => inl JS.SyntaxError
  | Body Json.Null => inl JS.TypeError
  | Body data =>
      if Json.truthy (Json.get_opt (Some data) Json.success) then
        match Json.get_opt (Some data) Json.response with
        | Some resp =>
            if Json.truthy (Some resp) then
              match decode resp with
              | Some parsed =>
                  match Page.analysisData parsed fd with
                  | inr r => inr (Some r)
                  | inl e => inl e
                  end
              | None => inl JS.SyntaxError
              end
            else inr None
        | None => inr None
        end
      else inr None
  end.
Proof.
  unfold Page.attempt. destruct reply as [| |data]; [done|done|]. run.
  destruct data as [|b|x|s|items|fields]; try done.
  cbv [Json.get Json.get_opt]. run.
  destruct (Json.truthy _); [|done].
  destruct (Json.own (Json.prop_name Json.response) fields) as [resp|]; [|done].
  destruct (Json.truthy (Some resp)) eqn:Tr; [|done].
  destruct resp as [|b|x|s|items|fields']; try discriminate Tr;
    cbv [decode]; run; try done.
  by destruct (Json.JSON_parse s).
Qed.

Lemma analyzeData_reply_value fd reply st :
  Page.analyzeData_reply fd reply st =
  match Page.attempt fd reply with
  | inr (Some r) =>
      mk_state (fileData st) (Some r) false (error st) (JS.lit "summary")
  | inr None =>
      mk_state (fileData st) (analysis st) false (Some analyze_failed_message)
        (activeTab st)
  | inl _ =>
      mk_state (fileData st) (analysis st) false (Some analyze_error_message)
        (activeTab st)
  end.
Proof.
  unfold Page.analyzeData_reply.
  by destruct (Page.attempt fd reply) as [e|[r|]].
Qed.

End Outcomes.

(** X11: with a dataset in the state, an analysis always ends with the
    loading flag down and the dataset untouched, and reports as follows. A
    rejected request or body, a [null] answer, and a payload that does not
    decode, decodes to [null] or holds a score that does not convert to a
    number show the error message; an answer whose [success] or [response]
    is falsy shows the failure message; in both cases the analysis and the
    tab stay. Any other answer commits its result, shows no error and
    selects the summary tab. *)
Theorem analyzeData_reports `{Json.Builtins} reply st fd :
  fileData st = Some fd →
  let st' := Page.analyzeData reply st in
  loading st' = false ∧ fileData st' = Some fd ∧
  (network_failure reply ∨ reply = Body Json.Null ∨ unusable reply →
   error st' = Some analyze_error_message ∧
   analysis st' = analysis st ∧ activeTab st' = activeTab st) ∧
  (refused reply →
   error st' = Some analyze_failed_message ∧
   analysis st' = analysis st ∧ activeTab st' = activeTab st) ∧
  (∀ parsed, full_success reply parsed → usable parsed →
   ∃ r, Page.analysisData parsed fd = inr r ∧ analysis st' = Some r ∧
        error st' = None ∧ activeTab st' = JS.lit "summary").
Proof.
  intros Hfd. cbv zeta.
  unfold Page.analyzeData, Page.analyzeData_request. rewrite Hfd.
  rewrite analyzeData_reply_value, attempt_value.
  split; [by destruct reply as [| |[]]; repeat case_match|].
  split; [by destruct reply as [| |[]]; repeat case_match|].
  split; [|split].
  - intros [[->| ->] | [-> | (data & resp & -> & Hok & Hresp & Hpresent & Hdec)]];
      [done|done|done|].
    destruct data; try done.
    all: destruct (Json.truthy (Json.get_opt _ Json.success)); [|done].
    all: rewrite Hresp; destruct (Json.truthy (Some resp)); [|done].
    all: destruct Hdec as [-> | (parsed & -> & Hno)]; [done|].
    all: by destruct (analysisData_usable parsed fd) as [[? _] | [_ ->]].
  - intros (data & -> & Hdata & Hfalsy).
    destruct data; try done.
    all: destruct Hfalsy as [-> | Hr]; [done|].
    all: destruct (Json.truthy (Json.get_opt _ Json.success)); [|done].
    all: destruct (Json.get_opt _ Json.response) as [resp|]; [|done].
    all: by rewrite Hr.
  - intros parsed (data & resp & -> & Hok & Hresp & Hpresent & Hdec) Hparsed.
    assert (∃ r, Page.analysisData parsed fd = inr r) as [r Hr].
    { by destruct (analysisData_usable parsed fd) as [[_ ?] | [? _]]. }
    exists r. split; [exact Hr|].
    destruct data; try done.
    all: destruct (Json.truthy (Json.get_opt _ Json.success)); [|done].
    all: rewrite Hresp; destruct (Json.truthy (Some resp)); [|done].
    all: by rewrite Hdec, Hr.
Qed.

Lemma analyzeData_reports_witness :
  let st := mk_state (Some example_file) None false None (JS.lit "quality") in
  let payload :=
    Json.Obj [(JS.lit "summary",
               Json.Obj [(JS.lit "completenessScore",
                          Json.Obj [(JS.lit "toString", Json.Num 1)])])] in
  let reply :=
    Body (Json.Obj [(JS.lit "success", Json.Bool true);
                    (JS.lit "response", payload)]) in
  error (@Page.analyzeData example_builtins reply st)
    = Some analyze_error_message ∧
  analysis (@Page.analyzeData example_builtins reply st) = None.
Proof.
  cbv zeta.
  refine (let H := proj1 (proj2 (proj2
    (@analyzeData_reports example_builtins
       (Body (Json.Obj [(JS.lit "success", Json.Bool true);
                        (JS.lit "response", _)]))
       (mk_state (Some example_file) None false None (JS.lit "quality"))
       example_file eq_refl))) _ in conj (proj1 H) (proj1 (proj2 H))).
  right. right. eexists _, _.
  split; [reflexivity|]. split; [by vm_compute|]. split; [reflexivity|].
  split; [by vm_compute|]. right. eexists.
  split; [reflexivity|]. by intros [_ Hscore].
Defined.

Lemma or_else_truthy v d :
  Json.truthy (Some d) → Json.truthy (Some (Json.or_else v d)).
Proof.
  intros Hd. unfold Json.or_else. destruct v as [x|]; [|done].
  by destruct (Json.truthy (Some x)) eqn:Hx; [rewrite Hx|].
Qed.

(** X12: the sections of the payload are not validated, only defaulted.
    A payload that is [null], or whose truthy score does not convert to a
    number, throws a [TypeError]; every other payload gives a result, in
    which each of the five sections is the payload's own value, whatever
    its shape, when that value is truthy, and the whole default when the
    value is absent or falsy, never a mixture of the two; so every section
    of a result is truthy. *)
Theorem sections_are_defaulted_not_merged `{Json.Builtins} payload fd :
  (¬ usable payload ∧ Page.analysisData payload fd = inl JS.TypeError) ∨
  (usable payload ∧
   ∃ r, Page.analysisData payload fd = inr r ∧
        Forall (λ v, Json.truthy (Some v)) (sections r) ∧
        ∀ p d, default_section p = Some d →
          (∀ v, Json.get_opt (Some payload) p = Some v →
                Json.truthy (Some v) → section_of r p = Some v) ∧
          (Json.truthy (Json.get_opt (Some payload) p) = false →
           section_of r p = Some d)).
Proof.
  destruct (analysisData_usable payload fd) as [[Hu [r E]] | [Hu E]];
    [right | by left].
  split; [exact Hu|]. exists r. split; [exact E|].
  rewrite analysisData_value in E.
  assert (∃ percent,
            r = {|
              AnalysisResult.summary := {|
                AnalysisResult.totalRows := FileData.rows fd;
                AnalysisResult.totalColumns := FileData.columns fd;
                AnalysisResult.completenessScore := (percent / 100)%float;
                AnalysisResult.memorySize :=
                  Fmt.toFixed 2 (Fmt.div1024 (FileData.size fd))
                    ++ JS.lit " KB";
              |};
              AnalysisResult.dataQuality :=
                Json.or_else (Json.get_opt (Some payload) Json.dataQuality)
                  (Json.Obj [(JS.lit "missingValues", Json.Obj []);
                             (JS.lit "duplicateRows", Json.Num 0);
                             (JS.lit "dataTypeIssues", Json.Arr [])]);
              AnalysisResult.statistics :=
                Json.or_else (Json.get_opt (Some payload) Json.statistics)
                  (Json.Obj []);
              AnalysisResult.correlations :=
                Json.or_else (Json.get_opt (Some payload) Json.correlations)
                  (Json.Arr []);
              AnalysisResult.patterns :=
                Json.or_else (Json.get_opt (Some payload) Json.patterns)
                  (Json.Obj [(JS.lit "trends", Json.Arr []);
                             (JS.lit "distributions", Json.Obj []);
                             (JS.lit "outliers", Json.Arr [])]);
              AnalysisResult.insights :=
                Json.or_else (Json.get_opt (Some payload) Json.insights)
                  (Json.Arr []);
            |}) as [percent ->].
  { destruct payload; [done|..]; cbv zeta in E;
      (destruct (Json.ToNumber _) as [e|percent]; [done|]);
      injection E as <-; by exists percent. }
  clear E. split.
  - unfold sections.
    cbn [AnalysisResult.dataQuality AnalysisResult.statistics
         AnalysisResult.correlations AnalysisResult.patterns
         AnalysisResult.insights].
    repeat constructor; by apply or_else_truthy.
  - intros p d Hd.
    destruct p; try discriminate Hd; injection Hd as <-;
      cbn [section_of AnalysisResult.dataQuality AnalysisResult.statistics
           AnalysisResult.correlations AnalysisResult.patterns
           AnalysisResult.insights];
      (split;
       [intros v Hv Ht; rewrite Hv; unfold Json.or_else;
        by destruct (Json.truthy (Some v))
       |intros Hf; unfold Json.or_else;
        destruct (Json.get_opt _ _) as [v|]; [by rewrite Hf | done]]).
Qed.

Lemma sections_are_defaulted_not_merged_witness :
  let given := Json.Obj [(JS.lit "duplicateRows", Json.Num 3)] in
  let payload := Json.Obj [(JS.lit "dataQuality", given);
                           (JS.lit "insights", Json.Num 0)] in
  ∃ r, @Page.analysisData example_builtins payload example_file = inr r ∧
       AnalysisResult.dataQuality r = given ∧
       AnalysisResult.insights r = Json.Arr [].
Proof.
  cbv zeta.
  destruct (@sections_are_defaulted_not_merged example_builtins
              (Json.Obj [(JS.lit "dataQuality",
                          Json.Obj [(JS.lit "duplicateRows", Json.Num 3)]);
                         (JS.lit "insights", Json.Num 0)])
              example_file) as [[Hno _] | (_ & r & E & _ & Hsec)].
  - destruct Hno. split; [discriminate | vm_compute; reflexivity].
  - exists r. split; [exact E|]. split.
    + assert (section_of r Json.dataQuality
              = Some (Json.Obj [(JS.lit "duplicateRows", Json.Num 3)])) as Hq.
      { refine (proj1 (Hsec Json.dataQuality _ eq_refl) _ _ _).
        - vm_compute. reflexivity.
        - vm_compute. exact I. }
      by injection Hq.
    + assert (section_of r Json.insights = Some (Json.Arr [])) as Hi.
      { refine (proj2 (Hsec Json.insights _ eq_refl) _).
        vm_compute. reflexivity. }
      by injection Hi.
Defined.

(** [replace] cuts out the first occurrence of the pattern, the one with
    the shortest text before it, and only that one; a string without an
    occurrence is returned as it is. *)
Lemma replace_first pat rep s :
  (∀ a b, s = a ++ pat ++ b →
          (∀ a' b', s = a' ++ pat ++ b' → length a ≤ length a') →
          JS.replace pat rep s = a ++ rep ++ b) ∧
  ((∀ a b, s ≠ a ++ pat ++ b) → JS.replace pat rep s = s).
Proof.
  induction s as [|c s IH].
  - split.
    + intros a b E Hmin. symmetry in E.
      apply app_eq_nil in E as [-> [-> ->]%app_eq_nil]. cbn.
      by rewrite app_nil_r.
    + intros Hno. cbn. destruct pat; [|done]. by destruct (Hno [] []).
  - cbn [JS.replace]. destruct (JS.startsWith pat (c :: s)) eqn:Hs.
    + apply startsWith_spec in Hs as [rest Hrest]. split.
      * intros a b E Hmin.
        pose proof (Hmin [] rest Hrest) as Hlen. destruct a; [|cbn in Hlen; lia].
        cbn in E |- *. rewrite E, drop_app_length. done.
      * intros Hno. by destruct (Hno [] rest).
    + assert (∀ b, c :: s ≠ pat ++ b) as Hhead.
      { intros b E. rewrite (proj2 (startsWith_spec pat (c :: s))) in Hs; [done|].
        by exists b. }
      destruct IH as [IHfound IHnone]. split.
      * intros a b E Hmin. destruct a as [|c' a]; [by destruct (Hhead b)|].
        injection E as <- E. cbn. f_equal. apply IHfound; [done|].
        intros a' b' E'. specialize (Hmin (c :: a') b').
        cbn in Hmin. rewrite <- E' in Hmin. specialize (Hmin eq_refl). lia.
      * intros Hno. f_equal. apply IHnone. intros a b E.
        apply (Hno (c :: a) b). by rewrite E.
Qed.

(** X15: a report is offered exactly when the state holds both an analysis
    and a dataset, and it carries the name of the dataset and the sections
    of the analysis. The download is named after the file with the first
    [.csv] cut out, wherever it stands and whatever stands before it, and
    [_analysis.json] put at the end; a name that holds no [.csv] is kept
    whole. *)
Theorem download_is_named_after_the_file now st :
  (analysis st = None ∨ fileData st = None → Page.downloadReport now st = None) ∧
  (∀ a fd, analysis st = Some a → fileData st = Some fd →
     ∃ report download,
       Page.downloadReport now st = Some (report, download) ∧
       Report.fileName report = FileData.name fd ∧
       Report.timestamp report = now ∧
       Report.summary report = AnalysisResult.summary a ∧
       [Report.dataQuality report; Report.statistics report;
        Report.correlations report; Report.patterns report;
        Report.insights report] = sections a ∧
       (∀ stem rest,
          FileData.name fd = stem ++ JS.lit ".csv" ++ rest →
          (∀ stem' rest', FileData.name fd = stem' ++ JS.lit ".csv" ++ rest' →
                          length stem ≤ length stem') →
          download = stem ++ rest ++ JS.lit "_analysis.json") ∧
       ((∀ stem rest, FileData.name fd ≠ stem ++ JS.lit ".csv" ++ rest) →
        download = FileData.name fd ++ JS.lit "_analysis.json")).
Proof.
  unfold Page.downloadReport. split.
  - intros [-> | ->]; [done|]. by destruct (analysis st).
  - intros a fd -> ->. eexists _, _. split; [reflexivity|].
    cbn [Report.fileName Report.timestamp Report.summary Report.dataQuality
         Report.statistics Report.correlations Report.patterns Report.insights].
    destruct (replace_first (JS.lit ".csv") [] (FileData.name fd))
      as [Hfound Hnone].
    repeat split.
    + intros stem rest E Hmin. rewrite (Hfound stem rest E Hmin).
      cbn [app]. by rewrite <- app_assoc.
    + intros Hno. by rewrite Hnone.
Qed.

Lemma download_is_named_after_the_file_witness :
  ∃ report,
    Page.downloadReport (JS.lit "2024-01-01T00:00:00.000Z")
      (@after example_builtins
         [FileChosen (Some (JS.lit "my.data.csv.csv", JS.lit "a,b"));
          Analyzed (Body (Json.Obj [(JS.lit "success", Json.Bool true);
                                    (JS.lit "response", Json.Obj [])]))])
    = Some (report, JS.lit "my.data.csv_analysis.json").
Proof.
  destruct (@after example_builtins
              [FileChosen (Some (JS.lit "my.data.csv.csv", JS.lit "a,b"));
               Analyzed (Body (Json.Obj [(JS.lit "success", Json.Bool true);
                                         (JS.lit "response", Json.Obj [])]))])
    as [f a l e t] eqn:E.
  destruct f as [fd|]; [|vm_compute in E; discriminate].
  destruct a as [a|]; [|vm_compute in E; discriminate].
  assert (FileData.name fd = JS.lit "my.data.csv.csv") as Hname.
  { vm_compute in E. by injection E as <- _ _ _ _. }
  destruct (proj2 (download_is_named_after_the_file
                     (JS.lit "2024-01-01T00:00:00.000Z")
                     (mk_state (Some fd) (Some a) l e t)) a fd eq_refl eq_refl)
    as (report & download & Hd & _ & _ & _ & _ & Hfirst & _).
  exists report. rewrite Hd. do 2 f_equal.
  apply (Hfirst (JS.lit "my.data") (JS.lit ".csv")).
  - rewrite Hname. vm_compute. reflexivity.
  - rewrite Hname. intros stem' rest' E'. vm_compute in E'.
    do 7 (destruct stem' as [|? stem']; [by vm_compute in E'|]).
    cbn [length]. change (length (JS.lit "my.data")) with 7. lia.
Defined.

(** ** Joining, splitting and trimming, once more *)

Lemma split_free sep s : Forall (λ l, sep ∉ l) (JS.split sep s).
Proof.
  induction s as [|c s IH]; cbn [JS.split].
  - repeat constructor. apply not_elem_of_nil.
  - destruct (N.eqb_spec c sep) as [->|Hc].
    + constructor; [apply not_elem_of_nil | exact IH].
    + destruct (JS.split sep s) as [|l ls]; cbn [JS.push_head].
      * repeat constructor. by intros [->|?%elem_of_nil]%elem_of_cons.
      * apply Forall_cons in IH as [Hl Hls]. constructor; [|exact Hls].
        by intros [->|?]%elem_of_cons.
Qed.

Lemma split_elem sep s l x : l ∈ JS.split sep s → x ∈ l → x ∈ s.
Proof.
  revert l. induction s as [|c s IH]; intros l; cbn [JS.split].
  - by intros ->%list_elem_of_singleton.
  - destruct (N.eqb c sep).
    + intros [->|Hl]%elem_of_cons Hx; [by apply elem_of_nil in Hx|].
      right. by apply (IH l).
    + destruct (JS.split sep s) as [|l0 ls]; cbn [JS.push_head].
      * intros ->%list_elem_of_singleton Hx.
        apply list_elem_of_singleton in Hx as ->. by left.
      * intros [->|Hl]%elem_of_cons Hx.
        -- apply elem_of_cons in Hx as [->|Hx]; [by left|].
           right. apply (IH l0); [by left | done].
        -- right. apply (IH l); [by right | done].
Qed.

Lemma split_none sep s : sep ∉ s → JS.split sep s = [s].
Proof.
  induction s as [|c s IH]; [done|].
  intros [Hc Hs]%not_elem_of_cons. cbn [JS.split].
  destruct (N.eqb_spec c sep); [congruence|]. by rewrite IH.
Qed.

Lemma split_app_sep sep a t :
  sep ∉ a → JS.split sep (a ++ sep :: t) = a :: JS.split sep t.
Proof.
  induction a as [|c a IH]; cbn [app JS.split].
  - intros _. by rewrite N.eqb_refl.
  - intros [Hc Ha]%not_elem_of_cons.
    destruct (N.eqb_spec c sep); [congruence|]. by rewrite IH.
Qed.

Lemma join_cons sep x y rest :
  JS.join sep (x :: y :: rest) = x ++ sep :: JS.join sep (y :: rest).
Proof. done. Qed.

Lemma split_join sep cells :
  cells ≠ [] → Forall (λ l, sep ∉ l) cells →
  JS.split sep (JS.join sep cells) = cells.
Proof.
  induction cells as [|x [|y rest] IH]; [done| |].
  - intros _ [Hx _]%Forall_cons. by apply split_none.
  - intros _ [Hx Hrest]%Forall_cons.
    rewrite join_cons, split_app_sep by done. by rewrite IH.
Qed.

Lemma join_split sep s : JS.join sep (JS.split sep s) = s.
Proof.
  induction s as [|c s IH]; [done|]. cbn [JS.split].
  destruct (N.eqb_spec c sep) as [->|Hc].
  - destruct (JS.split sep s) as [|l ls] eqn:E; [by apply split_nonempty in E|].
    by rewrite join_cons, IH.
  - destruct (JS.split sep s) as [|l [|l' ls]] eqn:E;
      [by apply split_nonempty in E| |]; cbn [JS.push_head].
    + cbn in IH |- *. by rewrite IH.
    + rewrite join_cons in IH |- *. cbn [app]. by rewrite IH.
Qed.

Lemma occurrences_join sep ls :
  Forall (λ l, sep ∉ l) ls → occurrences sep (JS.join sep ls) = length ls - 1.
Proof.
  induction ls as [|x [|y rest] IH]; [done| |].
  - intros [Hx _]%Forall_cons. cbn. by apply occurrences_none.
  - intros [Hx Hrest]%Forall_cons.
    rewrite join_cons, occurrences_app. cbn [occurrences].
    rewrite N.eqb_refl, IH, occurrences_none by done. cbn. lia.
Qed.

Lemma join_elem sep ls x :
  x ∈ JS.join sep ls → x = sep ∨ ∃ l, l ∈ ls ∧ x ∈ l.
Proof.
  induction ls as [|l [|y rest] IH]; [by intros ?%elem_of_nil| |].
  - intros Hx. right. exists l. split; [by left|done].
  - rewrite join_cons. intros [Hx|[->|Hx]%elem_of_cons]%elem_of_app.
    + right. exists l. split; [by left|done].
    + by left.
    + destruct (IH Hx) as [->|(l' & Hl' & Hx')]; [by left|].
      right. exists l'. split; [by right|done].
Qed.

Lemma trimStart_id s : starts_ws s = false → JS.trimStart s = s.
Proof. destruct s as [|c s]; [done|]. cbn. by intros ->. Qed.

Lemma trimEnd_id s : ends_ws s = false → JS.trimEnd s = s.
Proof.
  unfold ends_ws. destruct s as [|c s _] using rev_ind; [done|].
  rewrite last_snoc. intros Hc. rewrite trimEnd_nonblank.
  - unfold JS.trimEnd. cbn. by rewrite Hc.
  - cbn. by rewrite Hc.
Qed.

Lemma trim_id s : starts_ws s = false → ends_ws s = false → JS.trim s = s.
Proof.
  intros Hs He. unfold JS.trim. by rewrite trimStart_id, trimEnd_id.
Qed.

Lemma starts_ws_trimStart s : starts_ws (JS.trimStart s) = false.
Proof.
  induction s as [|c s IH]; [done|]. cbn.
  destruct (JS.is_ws c) eqn:E; [exact IH|]. cbn. exact E.
Qed.

Lemma ends_ws_trimEnd s : ends_ws (JS.trimEnd s) = false.
Proof.
  unfold JS.trimEnd, ends_ws. rewrite last_reverse.
  pose proof (starts_ws_trimStart (reverse s)) as Hs.
  by destruct (JS.trimStart (reverse s)).
Qed.

Lemma starts_ws_trimEnd s : starts_ws s = false → starts_ws (JS.trimEnd s) = false.
Proof.
  destruct s as [|c s]; [done|]. intros Hc. cbn in Hc.
  change (c :: s) with ([c] ++ s). destruct (blank s) eqn:Hs.
  - rewrite trimEnd_blank by by rewrite Hs.
    unfold JS.trimEnd. cbn. by rewrite Hc.
  - rewrite trimEnd_nonblank by done. exact Hc.
Qed.

Lemma trim_ends s : starts_ws (JS.trim s) = false ∧ ends_ws (JS.trim s) = false.
Proof.
  unfold JS.trim. split; [|apply ends_ws_trimEnd].
  apply starts_ws_trimEnd, starts_ws_trimStart.
Qed.

Lemma trim_idem s : JS.trim (JS.trim s) = JS.trim s.
Proof. destruct (trim_ends s). by apply trim_id. Qed.

(** ** What [parseCSV] stores *)

Lemma clean_nil : clean [].
Proof. split; [done|]. split; apply not_elem_of_nil. Qed.

Lemma clean_piece line l :
  JS.nl ∉ line → l ∈ JS.split JS.comma line → clean (JS.trim l).
Proof.
  intros Hline Hl. split; [apply trim_idem|]. split.
  - intros Hin%trim_elem.
    pose proof (split_free JS.comma line) as Hfree.
    rewrite Forall_forall in Hfree. by apply (Hfree l).
  - intros Hin%trim_elem. apply Hline. by apply (split_elem JS.comma line l).
Qed.

Lemma clean_values line :
  JS.nl ∉ line → Forall clean (JS.trim <$> JS.split JS.comma line).
Proof.
  intros Hline. apply Forall_fmap, Forall_forall. intros l Hl.
  by apply (clean_piece line).
Qed.

Lemma or_empty_Some x : JS.or_empty (Some x) = x.
Proof. by destruct x. Qed.

Lemma clean_or_empty (values : list jsstring) j :
  Forall clean values → clean (JS.or_empty (values !! j)).
Proof.
  intros Hv. destruct (values !! j) as [x|] eqn:E; [|apply clean_nil].
  rewrite or_empty_Some. rewrite Forall_forall in Hv.
  apply Hv. by eapply list_elem_of_lookup_2.
Qed.

Lemma lines_free text : Forall (λ l, JS.nl ∉ l) (JS.split JS.nl (JS.trim text)).
Proof. apply split_free. Qed.

Lemma headers_clean text fileName fd :
  Page.parseCSV text fileName = inr fd →
  FileData.columns fd = length (FileData.headers fd) ∧
  0 < length (FileData.headers fd) ∧
  Forall clean (FileData.headers fd).
Proof.
  destruct (parseCSV_returns text fileName) as (line0 & rest & Hsplit & ->).
  intros [= <-]. cbn [FileData.headers FileData.columns].
  split; [by rewrite length_fmap|]. split.
  - rewrite length_fmap, split_length. lia.
  - apply clean_values.
    pose proof (lines_free text) as Hfree. rewrite Hsplit in Hfree.
    by apply Forall_cons in Hfree as [? _].
Qed.

(** X1: the headers [parseCSV] stores are never none: there is one more
    than the first line of the trimmed text has commas, and the column
    count is their number; each is stored trimmed and holds neither a comma
    nor a newline. *)
Theorem parseCSV_headers_are_clean text fileName :
  ∃ fd line0,
    Page.parseCSV text fileName = inr fd ∧
    head (JS.split JS.nl (JS.trim text)) = Some line0 ∧
    FileData.headers fd = JS.trim <$> JS.split JS.comma line0 ∧
    FileData.columns fd = length (FileData.headers fd) ∧
    FileData.columns fd = S (occurrences JS.comma line0) ∧
    Forall clean (FileData.headers fd).
Proof.
  destruct (parseCSV_returns text fileName) as (line0 & rest & Hsplit & E).
  eexists _, line0. split; [exact E|]. rewrite Hsplit.
  cbn [head FileData.headers FileData.columns].
  split; [done|]. split; [done|]. split; [by rewrite length_fmap|].
  split; [apply split_length|].
  apply clean_values.
  pose proof (lines_free text) as Hfree. rewrite Hsplit in Hfree.
  by apply Forall_cons in Hfree as [? _].
Qed.

(** The rows of the preview are the row mappings of the first ten lines
    after the header. *)
Lemma parseCSV_preview_row text fileName fd i row :
  Page.parseCSV text fileName = inr fd →
  FileData.preview fd !! i = Some row →
  ∃ line, JS.split JS.nl (JS.trim text) !! S i = Some line ∧ i < 10 ∧
          (JS.nl ∉ line) ∧ row = row_of (FileData.headers fd) line.
Proof.
  destruct (parseCSV_returns text fileName) as (line0 & rest & Hsplit & ->).
  intros [= <-]. cbn [FileData.preview FileData.headers].
  intros Hrow. apply lookup_take_Some in Hrow as [Hrow Hi].
  apply list_lookup_fmap_Some in Hrow as (line & -> & Hline).
  exists line. rewrite Hsplit. cbn. split; [done|]. split; [done|].
  split; [|done].
  pose proof (lines_free text) as Hfree. rewrite Hsplit in Hfree.
  apply Forall_cons in Hfree as [_ Hrest]. rewrite Forall_forall in Hrest.
  apply Hrest. by eapply list_elem_of_lookup_2.
Qed.

(** X2: the row at position [i] of the preview is made from line [i + 1]
    of the trimmed text, split on commas and each value trimmed. Its keys
    are the headers other than [__proto__]; such a header is bound to the
    value at the last position where it stands, to [''] when the line has
    no value there; values beyond the headers are stored nowhere; and every
    stored value is trimmed and holds neither a comma nor a newline. *)
Theorem preview_rows_pair_values_with_headers text fileName fd i row :
  Page.parseCSV text fileName = inr fd →
  FileData.preview fd !! i = Some row →
  ∃ line,
    JS.split JS.nl (JS.trim text) !! S i = Some line ∧ i < 10 ∧
    let values := JS.trim <$> JS.split JS.comma line in
    let headers := FileData.headers fd in
    (∀ h, h ∈ dom row ↔ h ∈ headers ∧ h ≠ JS.lit "__proto__") ∧
    (∀ j h, headers !! j = Some h → h ≠ JS.lit "__proto__" →
            (∀ k, j < k → headers !! k ≠ Some h) →
            row !! h = Some (JS.or_empty (values !! j))) ∧
    (∀ j h, headers !! j = Some h → h ≠ JS.lit "__proto__" →
            length values ≤ j → row !! h = Some []) ∧
    (∀ h v, row !! h = Some v → clean v).
Proof.
  intros E Hrow.
  destruct (parseCSV_preview_row _ _ _ _ _ E Hrow) as (line & Hl & Hi & Hfree & ->).
  exists line. split; [exact Hl|]. split; [exact Hi|]. cbv zeta.
  destruct (row_of_pairs (FileData.headers fd) line) as (Hdom & Hpos & Hpad).
  split; [exact Hdom|]. split; [exact Hpos|]. split; [exact Hpad|].
  intros h v. rewrite row_of_lookup.
  destruct (last_index h (FileData.headers fd)) as [j|]; [|done].
  case_decide; [done|]. intros [= <-].
  by apply clean_or_empty, clean_values.
Qed.

Lemma preview_rows_pair_values_with_headers_witness :
  ∃ fd row,
    Page.parseCSV (JS.lit "id, name ,id" ++ [JS.nl] ++ JS.lit "1, Ann ,7,x"
                     ++ [JS.nl] ++ JS.lit "2")
      (JS.lit "t.csv") = inr fd ∧
    FileData.preview fd !! 1 = Some row ∧
    row !! JS.lit "name" = Some [] ∧ row !! JS.lit "id" = Some [].
Proof.
  destruct (parseCSV_returns
              (JS.lit "id, name ,id" ++ [JS.nl] ++ JS.lit "1, Ann ,7,x"
                 ++ [JS.nl] ++ JS.lit "2") (JS.lit "t.csv"))
    as (line0 & rest & Hsplit & E).
  vm_compute in Hsplit. injection Hsplit as <- <-.
  eexists _, _. split; [exact E|]. split; [reflexivity|].
  destruct (preview_rows_pair_values_with_headers _ _ _ 1 _ E eq_refl)
    as (line & Hline & _ & _ & _ & Hpad & _).
  cbv zeta in Hpad.
  vm_compute in Hline. injection Hline as <-.
  split.
  - apply (Hpad 1); [reflexivity | by vm_compute | vm_compute; lia].
  - apply (Hpad 2); [reflexivity | by vm_compute | vm_compute; lia].
Defined.

(** ** The text sent to the agent *)

(** The cell written for a header of the row of a line: the stored value,
    and for [__proto__], which is never stored, the text of the prototype
    object that the read finds instead. *)
Lemma cell_row_of function_text headers line h :
  h ∈ headers →
  cell function_text (row_of headers line) h =
  if decide (h = JS.lit "__proto__") then JS.lit "[object Object]"
  else match last_index h headers with
       | Some j => JS.or_empty ((JS.trim <$> JS.split JS.comma line) !! j)
       | None => []
       end.
Proof.
  intros [j Hj]%last_index_elem. unfold cell, JS.obj_get.
  rewrite row_of_lookup, Hj. case_decide as Hh; [done|].
  cbn. by destruct (JS.or_empty _).
Qed.

Lemma clean_cell function_text headers line h :
  h ∈ headers → JS.nl ∉ line → clean (cell function_text (row_of headers line) h).
Proof.
  intros Hh Hline. rewrite cell_row_of by done. case_decide.
  - split; [by vm_compute|]. split; by apply (bool_decide_unpack _).
  - destruct (last_index h headers); [|apply clean_nil].
    by apply clean_or_empty, clean_values.
Qed.

Lemma clean_cells function_text headers line :
  JS.nl ∉ line →
  Forall clean (cell function_text (row_of headers line) <$> headers).
Proof.
  intros Hline. apply Forall_fmap, Forall_forall. intros h Hh.
  by apply clean_cell.
Qed.

Lemma join_comma_free cells : Forall clean cells → JS.nl ∉ JS.join JS.comma cells.
Proof.
  intros Hc [Hx|(l & Hl & Hx)]%join_elem; [done|].
  rewrite Forall_forall in Hc. by destruct (Hc l Hl) as (_ & _ & Hnl).
Qed.

Lemma fmap_trim_clean cells : Forall clean cells → JS.trim <$> cells = cells.
Proof.
  induction 1 as [|c cells [Hc _] _ IH]; [done|]. cbn. by rewrite Hc, IH.
Qed.

Lemma split_join_clean cells :
  cells ≠ [] → Forall clean cells →
  JS.trim <$> JS.split JS.comma (JS.join JS.comma cells) = cells.
Proof.
  intros Hne Hc. rewrite split_join, fmap_trim_clean; [done|done|done|].
  eapply Forall_impl; [exact Hc|]. by intros l (_ & ? & _).
Qed.

(** The lines of the request text for given headers and lines of data. *)
Lemma csvContent_lines function_text text fileName fd :
  Page.parseCSV text fileName = inr fd →
  ∃ lines,
    length lines = length (FileData.preview fd) ∧
    Forall (λ l, JS.nl ∉ l) lines ∧
    FileData.preview fd = row_of (FileData.headers fd) <$> lines ∧
    Page.csvContent function_text fd =
      JS.join JS.nl
        (JS.join JS.comma (FileData.headers fd)
         :: ((λ line, JS.join JS.comma
                        (cell function_text (row_of (FileData.headers fd) line)
                         <$> FileData.headers fd)) <$> lines)).
Proof.
  destruct (parseCSV_returns text fileName) as (line0 & rest & Hsplit & ->).
  intros [= <-]. exists (take 10 rest).
  unfold Page.csvContent. cbn [FileData.preview FileData.headers].
  rewrite <- fmap_take, length_fmap. split; [done|]. split.
  - pose proof (lines_free text) as Hfree. rewrite Hsplit in Hfree.
    apply Forall_cons in Hfree as [_ Hrest]. by apply Forall_take.
  - split; [done|]. by rewrite <- list_fmap_compose.
Qed.

(** X5: the text sent to the agent has the header line and one line for
    each previewed row, so at most ten lines of data however many rows the
    file has; and the text a built-in function would print never gets into
    it, since no header other than [__proto__] is missing from a row. *)
Theorem request_holds_the_preview_only function_text text fileName fd :
  Page.parseCSV text fileName = inr fd →
  occurrences JS.nl (Page.csvContent function_text fd)
    = min (FileData.rows fd) 10 ∧
  length (JS.split JS.nl (Page.csvContent function_text fd))
    = S (length (FileData.preview fd)) ∧
  head (JS.split JS.nl (Page.csvContent function_text fd))
    = Some (JS.join JS.comma (FileData.headers fd)) ∧
  ∀ other, Page.csvContent other fd = Page.csvContent function_text fd.
Proof.
  intros E.
  destruct (headers_clean _ _ _ E) as (_ & _ & Hclean).
  assert (∀ ft, ∃ lines,
            length lines = length (FileData.preview fd) ∧
            Forall (λ l, JS.nl ∉ l) (JS.join JS.comma (FileData.headers fd) :: lines) ∧
            Page.csvContent ft fd =
              JS.join JS.nl (JS.join JS.comma (FileData.headers fd) :: lines))
    as Hshape.
  { intros ft.
    destruct (csvContent_lines ft _ _ _ E) as (lines & Hlen & Hfree & _ & ->).
    eexists. split; [|split; [|reflexivity]].
    - by rewrite length_fmap.
    - constructor; [by apply join_comma_free|].
      apply Forall_fmap, Forall_forall. intros line Hline.
      rewrite Forall_forall in Hfree.
      apply join_comma_free, clean_cells. by apply Hfree. }
  destruct (Hshape function_text) as (lines & Hlen & Hfree & Hcsv).
  split; [|split; [|split]].
  - rewrite Hcsv, occurrences_join by done. cbn [length].
    apply parseCSV_rows in E as [_ <-]. lia.
  - by rewrite Hcsv, split_join, <- Hlen.
  - by rewrite Hcsv, split_join.
  - intros other.
    destruct (csvContent_lines other _ _ _ E) as (ls & _ & Hf & Hp & ->).
    destruct (csvContent_lines function_text _ _ _ E) as (ls' & _ & Hf' & Hp' & ->).
    do 2 f_equal.
    assert (∀ ft l, JS.nl ∉ l →
              cell ft (row_of (FileData.headers fd) l) <$> FileData.headers fd
              = cell (λ _, []) (row_of (FileData.headers fd) l)
                  <$> FileData.headers fd) as Hcell.
    { intros ft l Hl. apply list_fmap_ext. intros j h Hh.
      apply list_elem_of_lookup_2 in Hh. by rewrite !cell_row_of. }
    transitivity ((λ r, JS.join JS.comma (cell (λ _, []) r <$> FileData.headers fd))
                  <$> FileData.preview fd).
    + rewrite Hp, <- list_fmap_compose. apply Forall_fmap_ext_1.
      eapply Forall_impl; [exact Hf|]. intros l Hl. cbn. by rewrite Hcell.
    + rewrite Hp', <- list_fmap_compose. symmetry. apply Forall_fmap_ext_1.
      eapply Forall_impl; [exact Hf'|]. intros l Hl. cbn. by rewrite Hcell.
Qed.

Lemma request_holds_the_preview_only_witness :
  ∃ fd, Page.parseCSV Page.SAMPLE_CSV (JS.lit "sample_data.csv") = inr fd ∧
        FileData.rows fd = 15 ∧
        occurrences JS.nl (Page.csvContent (λ _, []) fd) = 10.
Proof.
  destruct sample_data_shape as (fd & E & R & _).
  exists fd. split; [exact E|]. split; [exact R|].
  rewrite (proj1 (request_holds_the_preview_only (λ _, []) _ _ _ E)), R.
  reflexivity.
Defined.

Lemma starts_ws_app a b : a ≠ [] → starts_ws (a ++ b) = starts_ws a.
Proof. by destruct a. Qed.

Lemma ends_ws_app a b : b ≠ [] → ends_ws (a ++ b) = ends_ws b.
Proof.
  intros Hb. unfold ends_ws.
  destruct b as [|c b _] using rev_ind; [done|].
  by rewrite app_assoc, !last_snoc.
Qed.

Lemma join_head_nonempty sep x rest : x ≠ [] → JS.join sep (x :: rest) ≠ [].
Proof. destruct rest; [done|]. rewrite join_cons. by destruct x. Qed.

Lemma clean_edges c : clean c → starts_ws c = false ∧ ends_ws c = false.
Proof. intros [<- _]. apply trim_ends. Qed.

Lemma join_comma_edges cells :
  Forall clean cells →
  starts_ws (JS.join JS.comma cells) = false ∧
  ends_ws (JS.join JS.comma cells) = false.
Proof.
  induction cells as [|x [|y rest] IH]; [done| |].
  - intros [Hx _]%Forall_cons. by apply clean_edges.
  - intros [Hx Hrest]%Forall_cons. rewrite join_cons.
    destruct (IH Hrest) as [_ He]. destruct (clean_edges x Hx) as [Hs _].
    split.
    + destruct x; [done|]. by rewrite starts_ws_app.
    + rewrite ends_ws_app by done.
      destruct (JS.join JS.comma (y :: rest)) as [|c j] eqn:Ej; [done|].
      change (JS.comma :: c :: j) with ([JS.comma] ++ c :: j).
      by rewrite ends_ws_app.
Qed.

Lemma join_comma_two cells :
  2 ≤ length cells → JS.join JS.comma cells ≠ [].
Proof.
  destruct cells as [|x [|y rest]]; cbn [length]; [lia|lia|].
  intros _. rewrite join_cons. by destruct x.
Qed.

Lemma join_lines_edges lines :
  Forall (λ l, l ≠ [] ∧ starts_ws l = false ∧ ends_ws l = false) lines →
  starts_ws (JS.join JS.nl lines) = false ∧
  ends_ws (JS.join JS.nl lines) = false.
Proof.
  induction lines as [|x [|y rest] IH]; [done| |].
  - by intros [(_ & ? & ?) _]%Forall_cons.
  - intros [(Hx & Hs & _) Hrest]%Forall_cons. rewrite join_cons.
    destruct (IH Hrest) as [_ He]. split.
    + by rewrite starts_ws_app.
    + rewrite ends_ws_app by done.
      apply Forall_cons in Hrest as [(Hy & _) _].
      pose proof (join_head_nonempty JS.nl y rest Hy) as Hj.
      destruct (JS.join JS.nl (y :: rest)) as [|c j] eqn:Ej; [done|].
      change (JS.nl :: c :: j) with ([JS.nl] ++ c :: j).
      by rewrite ends_ws_app.
Qed.

(** The row of a line is the row of the line written back from it. *)
Lemma row_of_written_back function_text headers line :
  headers ≠ [] → Forall clean headers → JS.nl ∉ line →
  row_of headers
    (JS.join JS.comma (cell function_text (row_of headers line) <$> headers))
  = row_of headers line.
Proof.
  intros Hne Hclean Hline. apply map_eq. intros h.
  rewrite !row_of_lookup.
  destruct (last_index h headers) as [j|] eqn:Ej; [|done].
  case_decide as Hh; [done|]. f_equal.
  rewrite split_join_clean;
    [|by destruct headers|by apply clean_cells].
  pose proof (last_index_Some _ _ _ Ej) as [Hj _].
  rewrite list_lookup_fmap, Hj. cbn.
  rewrite cell_row_of by (by eapply list_elem_of_lookup_2).
  rewrite decide_False by done. rewrite Ej.
  apply or_empty_Some.
Qed.

(** X6: with two columns or more, the text sent to the agent parses back to
    the previewed data: the same headers, and as rows exactly the rows of
    the preview, whatever the file held beyond them and around its values. *)
Theorem request_text_parses_back function_text text fileName fd again :
  Page.parseCSV text fileName = inr fd →
  2 ≤ FileData.columns fd →
  Page.parseCSV (Page.csvContent function_text fd) again =
    inr {| FileData.name := again;
           FileData.size := length (Page.csvContent function_text fd);
           FileData.rows := length (FileData.preview fd);
           FileData.columns := FileData.columns fd;
           FileData.headers := FileData.headers fd;
           FileData.preview := FileData.preview fd |}.
Proof.
  intros E Hcols.
  destruct (headers_clean _ _ _ E) as (Hc & _ & Hclean). rewrite Hc in Hcols |- *.
  pose proof (proj2 (parseCSV_rows _ _ _ E)) as Hten.
  destruct (csvContent_lines function_text _ _ _ E)
    as (lines & Hlen & Hfree & Hp & Hcsv).
  set (H := FileData.headers fd) in *.
  set (written := λ line,
         JS.join JS.comma (cell function_text (row_of H line) <$> H)) in *.
  assert (Forall (λ l, l ≠ [] ∧ starts_ws l = false ∧ ends_ws l = false)
            (JS.join JS.comma H :: (written <$> lines))) as Hedges.
  { constructor.
    - split; [by apply join_comma_two|]. by apply join_comma_edges.
    - apply Forall_fmap, Forall_forall. intros line Hline.
      rewrite Forall_forall in Hfree. unfold written. split.
      + apply join_comma_two. by rewrite length_fmap.
      + apply join_comma_edges, clean_cells. by apply Hfree. }
  assert (Forall (λ l, JS.nl ∉ l) (JS.join JS.comma H :: (written <$> lines)))
    as Hnl.
  { constructor; [by apply join_comma_free|].
    apply Forall_fmap, Forall_forall. intros line Hline.
    rewrite Forall_forall in Hfree.
    apply join_comma_free, clean_cells. by apply Hfree. }
  destruct (parseCSV_returns (Page.csvContent function_text fd) again)
    as (line0 & rest & Hsplit & ->).
  rewrite Hcsv in Hsplit.
  destruct (join_lines_edges _ Hedges) as [Hs He].
  rewrite trim_id, split_join in Hsplit by done.
  injection Hsplit as <- <-.
  assert (H ≠ []) as Hne by (destruct H; cbn in Hcols; [lia|done]).
  rewrite split_join_clean by done.
  assert (Forall (λ l, JS.comma ∉ l) H) as Hcomma.
  { eapply Forall_impl; [exact Hclean|]. by intros l (_ & ? & _). }
  rewrite split_join by done.
  do 2 f_equal.
  - by rewrite length_fmap.
  - rewrite Hp, <- list_fmap_compose.
    rewrite take_ge by (rewrite length_fmap; lia).
    apply Forall_fmap_ext_1. eapply Forall_impl; [exact Hfree|].
    intros line Hline. by apply row_of_written_back.
Qed.

Lemma request_text_parses_back_witness :
  ∃ fd, Page.parseCSV Page.SAMPLE_CSV (JS.lit "sample_data.csv") = inr fd ∧
        ∃ fd', Page.parseCSV (Page.csvContent (λ _, []) fd) (JS.lit "again")
               = inr fd' ∧
               FileData.rows fd' = 10 ∧
               FileData.preview fd' = FileData.preview fd.
Proof.
  destruct sample_data_shape as (fd & E & _ & C & P & _).
  exists fd. split; [exact E|]. eexists. split.
  - apply (request_text_parses_back _ _ _ _ _ E). rewrite C. lia.
  - split; [exact P | reflexivity].
Defined.

(** X14: after a file is chosen and analysed, the summary that is committed
    counts the whole text that was uploaded: its rows are the newlines of
    the trimmed text, its columns one more than the commas of the first
    line, its size the length of the untrimmed text in kilobytes, although
    the agent was sent ten rows at most. *)
Theorem summary_counts_the_uploaded_text `{Json.Builtins}
    fileName text reply st r :
  analysis (Page.analyzeData reply
              (Page.handleFileUpload (Some (fileName, text)) st)) = Some r →
  ∃ line0,
    head (JS.split JS.nl (JS.trim text)) = Some line0 ∧
    AnalysisResult.totalRows (AnalysisResult.summary r)
      = occurrences JS.nl (JS.trim text) ∧
    AnalysisResult.totalColumns (AnalysisResult.summary r)
      = S (occurrences JS.comma line0) ∧
    AnalysisResult.memorySize (AnalysisResult.summary r)
      = Fmt.toFixed 2 (Fmt.div1024 (length text)) ++ JS.lit " KB".
Proof.
  rewrite analyzeData_analysis. unfold Page.handleFileUpload, Page.onload.
  destruct (parseCSV_returns text fileName) as (line0 & rest & Hsplit & E).
  rewrite E. cbn [fileData analysis setAnalysis setFileData setError].
  destruct (Page.attempt _ reply) as [e|[r'|]] eqn:Ea; [done| |done].
  intros [= <-]. apply attempt_commits in Ea as (parsed & _ & Hr).
  apply analysisData_summary in Hr as (R & C & _ & M).
  exists line0. rewrite Hsplit, R, C, M.
  cbn [head FileData.rows FileData.columns FileData.size].
  pose proof (split_length JS.nl (JS.trim text)) as L. rewrite Hsplit in L.
  cbn [length] in L. rewrite split_length.
  split; [done|]. split; [lia|]. split; done.
Qed.

Lemma summary_counts_the_uploaded_text_witness :
  ∃ r, analysis (@Page.analyzeData example_builtins
                   (Body (Json.Obj [(JS.lit "success", Json.Bool true);
                                    (JS.lit "response", Json.Obj [])]))
                   (Page.handleFileUpload
                      (Some (JS.lit "sample_data.csv", Page.SAMPLE_CSV)) initial))
       = Some r ∧
       AnalysisResult.totalColumns (AnalysisResult.summary r) = 6.
Proof.
  destruct (analysis (@Page.analyzeData example_builtins
                   (Body (Json.Obj [(JS.lit "success", Json.Bool true);
                                    (JS.lit "response", Json.Obj [])]))
                   (Page.handleFileUpload
                      (Some (JS.lit "sample_data.csv", Page.SAMPLE_CSV)) initial)))
    as [r|] eqn:E; [|vm_compute in E; discriminate].
  exists r. split; [done|].
  destruct (@summary_counts_the_uploaded_text example_builtins _ _ _ _ _ E)
    as (line0 & Hhead & _ & C & _).
  rewrite C. vm_compute in Hhead. injection Hhead as <-. reflexivity.
Defined.

(** ** Windows line ends *)

Lemma crlf_app s t : crlf (s ++ t) = crlf s ++ crlf t.
Proof. unfold crlf. apply bind_app. Qed.

Lemma crlf_blank s : blank s → blank (crlf s).
Proof.
  induction s as [|c s IH]; [done|].
  change (c :: s) with ([c] ++ s). rewrite crlf_app, !blank_app.
  intros [Hc Hs]%andb_prop_elim. apply andb_prop_intro.
  split; [|by apply IH].
  unfold blank in Hc. cbn [forallb] in Hc.
  destruct (JS.is_ws c) eqn:Ec; [|done].
  unfold crlf, blank. cbn. destruct (N.eqb c JS.nl); cbn; by rewrite ?Ec.
Qed.

Lemma crlf_solid c : JS.is_ws c = false → crlf [c] = [c].
Proof.
  intros Hc. unfold crlf. cbn. destruct (N.eqb_spec c JS.nl) as [->|]; [|done].
  by vm_compute in Hc.
Qed.

Lemma crlf_cons c s : crlf (c :: s) = crlf [c] ++ crlf s.
Proof. change (c :: s) with ([c] ++ s). apply crlf_app. Qed.

Lemma trimStart_crlf s : JS.trimStart (crlf s) = crlf (JS.trimStart s).
Proof.
  induction s as [|c s IH]; [done|].
  rewrite crlf_cons. cbn [JS.trimStart]. destruct (JS.is_ws c) eqn:Hc.
  - rewrite trimStart_blank; [exact IH|]. apply crlf_blank.
    unfold blank. cbn. by rewrite Hc.
  - rewrite crlf_solid by done. cbn [app JS.trimStart]. rewrite Hc.
    by rewrite crlf_cons, crlf_solid.
Qed.

Lemma trimEnd_crlf s : JS.trimEnd (crlf s) = crlf (JS.trimEnd s).
Proof.
  induction s as [|c s IH] using rev_ind; [done|].
  rewrite crlf_app. destruct (JS.is_ws c) eqn:Hc.
  - rewrite !trimEnd_blank; [done| |].
    + unfold blank. cbn. by rewrite Hc.
    + apply crlf_blank. unfold blank. cbn. by rewrite Hc.
  - rewrite crlf_solid by done.
    rewrite !trimEnd_nonblank by (unfold blank; cbn; by rewrite Hc).
    rewrite (trimEnd_id [c]) by (unfold ends_ws; cbn; by rewrite Hc).
    by rewrite crlf_app, crlf_solid.
Qed.

Lemma trim_crlf s : JS.trim (crlf s) = crlf (JS.trim s).
Proof. unfold JS.trim. by rewrite trimStart_crlf, trimEnd_crlf. Qed.

Lemma push_head_add_cr c lines :
  lines ≠ [] → add_cr (JS.push_head c lines) = JS.push_head c (add_cr lines).
Proof. by destruct lines as [|l [|l' rest]]. Qed.

Lemma split_crlf s : JS.split JS.nl (crlf s) = add_cr (JS.split JS.nl s).
Proof.
  induction s as [|c s IH]; [done|].
  rewrite crlf_cons. cbn [JS.split].
  pose proof (split_nonempty JS.nl s) as Hne.
  unfold crlf at 1. cbn [mbind list_bind app].
  destruct (N.eqb_spec c JS.nl) as [->|Hc].
  - cbn [app JS.split]. rewrite N.eqb_refl. cbn [N.eqb JS.nl Pos.eqb].
    rewrite IH. by destruct (JS.split JS.nl s) as [|l rest].
  - cbn [app JS.split]. destruct (N.eqb_spec c JS.nl); [done|].
    by rewrite IH, push_head_add_cr.
Qed.

Lemma push_head_on_last (f : jsstring → jsstring) c pieces :
  pieces ≠ [] → (∀ p, f (c :: p) = c :: f p) →
  on_last f (JS.push_head c pieces) = JS.push_head c (on_last f pieces).
Proof.
  intros Hne Hf. destruct pieces as [|p [|p' rest]]; [done| |done].
  cbn. by rewrite Hf.
Qed.

Lemma split_snoc sep s c :
  c ≠ sep →
  JS.split sep (s ++ [c]) = on_last (λ p, p ++ [c]) (JS.split sep s).
Proof.
  intros Hc. induction s as [|x s IH]; cbn [app JS.split].
  - by destruct (N.eqb_spec c sep).
  - pose proof (split_nonempty sep s) as Hne. rewrite IH.
    destruct (N.eqb x sep).
    + by destruct (JS.split sep s).
    + by rewrite push_head_on_last.
Qed.

Lemma fmap_trim_on_last pieces :
  JS.trim <$> on_last (λ p, p ++ [13%N]) pieces = JS.trim <$> pieces.
Proof.
  induction pieces as [|p [|p' rest] IH]; [done| |].
  - cbn [on_last fmap list_fmap]. by rewrite trim_blank_r by by vm_compute.
  - cbn [on_last fmap list_fmap] in IH |- *. by rewrite IH.
Qed.

Lemma values_cr line :
  JS.trim <$> JS.split JS.comma (line ++ [13%N])
  = JS.trim <$> JS.split JS.comma line.
Proof. by rewrite split_snoc, fmap_trim_on_last. Qed.

Lemma add_cr_values lines :
  Forall2 (λ l' l, JS.trim <$> JS.split JS.comma l'
                   = JS.trim <$> JS.split JS.comma l)
          (add_cr lines) lines.
Proof.
  induction lines as [|l [|l' rest] IH]; [constructor|by repeat constructor|].
  cbn [add_cr] in IH |- *. constructor; [apply values_cr | exact IH].
Qed.

Lemma row_of_values headers l' l :
  JS.trim <$> JS.split JS.comma l' = JS.trim <$> JS.split JS.comma l →
  row_of headers l' = row_of headers l.
Proof. intros Hv. unfold row_of. cbv zeta. by rewrite Hv. Qed.

(** X4: a text with Windows line ends is read like the same text with
    plain newlines: the carriage returns are trimmed away with the values
    they follow, so that rows, columns, headers and preview are the same. *)
Theorem windows_line_ends_are_trimmed_away text fileName :
  ∃ fd fd',
    Page.parseCSV text fileName = inr fd ∧
    Page.parseCSV (crlf text) fileName = inr fd' ∧
    FileData.rows fd' = FileData.rows fd ∧
    FileData.columns fd' = FileData.columns fd ∧
    FileData.headers fd' = FileData.headers fd ∧
    FileData.preview fd' = FileData.preview fd.
Proof.
  destruct (parseCSV_returns text fileName) as (line0 & rest & Hsplit & E).
  destruct (parseCSV_returns (crlf text) fileName)
    as (line0' & rest' & Hsplit' & E').
  eexists _, _. split; [exact E|]. split; [exact E'|].
  cbn [FileData.rows FileData.columns FileData.headers FileData.preview].
  rewrite trim_crlf, split_crlf, Hsplit in Hsplit'.
  pose proof (add_cr_values (line0 :: rest)) as Hv. rewrite Hsplit' in Hv.
  apply Forall2_cons in Hv as [Hv0 Hv].
  split; [by rewrite (Forall2_length _ _ _ Hv)|].
  split.
  { rewrite <- (length_fmap JS.trim (JS.split JS.comma line0')), Hv0.
    apply length_fmap. }
  rewrite Hv0. split; [done|].
  f_equal. clear -Hv.
  induction Hv as [|l' l ls' ls Hl _ IH]; [done|].
  cbn. by rewrite IH, (row_of_values _ _ _ Hl).
Qed.

(** X3: white space around a text, blank lines included, changes nothing
    but the size: the rows, columns, headers and preview are those of the
    text itself, and the size grows by what was added. *)
Theorem surrounding_white_space_only_adds_size text fileName before after :
  blank before → blank after →
  ∃ fd fd',
    Page.parseCSV text fileName = inr fd ∧
    Page.parseCSV (before ++ text ++ after) fileName = inr fd' ∧
    FileData.rows fd' = FileData.rows fd ∧
    FileData.columns fd' = FileData.columns fd ∧
    FileData.headers fd' = FileData.headers fd ∧
    FileData.preview fd' = FileData.preview fd ∧
    FileData.size fd' = length before + FileData.size fd + length after.
Proof.
  intros Hb Ha.
  destruct (parseCSV_returns text fileName) as (line0 & rest & Hsplit & E).
  destruct (parseCSV_returns (before ++ text ++ after) fileName)
    as (line0' & rest' & Hsplit' & E').
  rewrite trim_blank_l, trim_blank_r, Hsplit in Hsplit' by done.
  injection Hsplit' as <- <-.
  eexists _, _. split; [exact E|]. split; [exact E'|].
  cbn [FileData.rows FileData.columns FileData.headers FileData.preview
       FileData.size].
  repeat split. rewrite !length_app. lia.
Qed.

Lemma surrounding_white_space_only_adds_size_witness :
  ∃ fd fd',
    Page.parseCSV (JS.lit "a,b" ++ [JS.nl] ++ JS.lit "1,2") (JS.lit "t.csv")
      = inr fd ∧
    Page.parseCSV ([JS.nl; 32%N] ++ (JS.lit "a,b" ++ [JS.nl] ++ JS.lit "1,2")
                     ++ [13%N; JS.nl; JS.nl]) (JS.lit "t.csv") = inr fd' ∧
    FileData.preview fd' = FileData.preview fd ∧
    FileData.size fd' = 12.
Proof.
  destruct (surrounding_white_space_only_adds_size
              (JS.lit "a,b" ++ [JS.nl] ++ JS.lit "1,2") (JS.lit "t.csv")
              [JS.nl; 32%N] [13%N; JS.nl; JS.nl])
    as (fd & fd' & E & E' & _ & _ & _ & P & S).
  - vm_compute. exact I.
  - vm_compute. exact I.
  - exists fd, fd'. split; [exact E|]. split; [exact E'|]. split; [exact P|].
    rewrite S.
    destruct (parseCSV_returns (JS.lit "a,b" ++ [JS.nl] ++ JS.lit "1,2")
                (JS.lit "t.csv")) as (l0 & r & _ & E0).
    rewrite E in E0. injection E0 as ->. reflexivity.
Defined.
